(** * hdcrypt_auth: the authentication-method manager of ibm.power_aix

    A shallow embedding of [plugins/modules/hdcrypt_auth.py]: the password
    strength predicate, the parser of [hdcryptmgr showlv -v] output
    ([get_auth_details]), the five action handlers and [main].

    Conventions of the embedding.
    - A Python [str] is a [string] whose characters are code points below 256.
    - [None] is [None]; a parameter of the module is an [option].
    - The global [results] dictionary is threaded through every call.
    - [module.run_command] is a node of a program tree; the environment
      answers it.  [module.exit_json] and [module.fail_json] end the process.
    - An uncaught Python exception ends the process as [Raise]. *)

From Stdlib Require Import ZArith Lia Ascii.
From stdpp Require Import gmap strings list fin_maps pretty.

Local Open Scope Z_scope.

(** ** Python strings *)

Module PyStr.

Definition LF : ascii := "010"%char.
Definition CR : ascii := "013"%char.
Definition DQ : ascii := "034"%char.
Definition BSL : ascii := "092"%char.

Definition code (c : ascii) : N := N_of_ascii c.

Definition in_range (lo hi : N) (c : ascii) : bool :=
  ((lo <=? code c) && (code c <=? hi))%N.

(** [str.isspace] on one code point below 256. *)
Definition isspace (c : ascii) : bool :=
  in_range 9 13 c || in_range 28 32 c || (code c =? 133)%N || (code c =? 160)%N.

(** The line boundaries of [str.splitlines] below 256. *)
Definition is_linebreak (c : ascii) : bool :=
  in_range 10 13 c || in_range 28 30 c || (code c =? 133)%N.

Definition snoc (s : string) (c : ascii) : string := s +:+ String c "".

Definition is_empty (s : string) : bool :=
  match s with EmptyString => true | _ => false end.

(** [s.splitlines()]: [cur] is the line being read, [after_cr] says that the
    previous character was a carriage return, so that a line feed that
    follows belongs to the same boundary. *)
Fixpoint splitlines_from (s : string) (cur : string) (after_cr : bool) : list string :=
  match s with
  | EmptyString => if is_empty cur then [] else [cur]
  | String c r =>
      if Ascii.eqb c LF && after_cr then splitlines_from r "" false
      else if is_linebreak c then cur :: splitlines_from r "" (Ascii.eqb c CR)
      else splitlines_from r (snoc cur c) false
  end.

Definition splitlines (s : string) : list string := splitlines_from s "" false.

(** [s.split()]: the maximal runs of characters that are not whitespace. *)
Fixpoint split_from (s : string) (cur : string) : list string :=
  match s with
  | EmptyString => if is_empty cur then [] else [cur]
  | String c r =>
      if isspace c
      then (if is_empty cur then split_from r "" else cur :: split_from r "")
      else split_from r (snoc cur c)
  end.

Definition split (s : string) : list string := split_from s "".

(** [c in s] for a single character [c]. *)
Fixpoint contains_char (c : ascii) (s : string) : bool :=
  match s with
  | EmptyString => false
  | String a r => Ascii.eqb a c || contains_char c r
  end.

(** [sub in s] for strings. *)
Fixpoint is_prefix (p s : string) : bool :=
  match p, s with
  | EmptyString, _ => true
  | String a p', String b s' => Ascii.eqb a b && is_prefix p' s'
  | String _ _, EmptyString => false
  end.

Fixpoint contains (sub s : string) : bool :=
  is_prefix sub s ||
  match s with
  | EmptyString => false
  | String _ r => contains sub r
  end.

(** [s[1:]] *)
Definition drop1 (s : string) : string :=
  match s with EmptyString => "" | String _ r => r end.

(** [str.lower] on one code point below 256: A-Z and the Latin-1 capitals
    (0xC0-0xDE without the multiplication sign 0xD7) move up by 32. *)
Definition lower_char (c : ascii) : ascii :=
  if in_range 65 90 c || (in_range 192 222 c && negb (code c =? 215)%N)
  then ascii_of_N (code c + 32)
  else c.

Fixpoint lower (s : string) : string :=
  match s with
  | EmptyString => ""
  | String c r => String (lower_char c) (lower r)
  end.

(** [len(s)] *)
Definition len (s : string) : Z := Z.of_nat (String.length s).

(** [" ".join(l)] *)
Fixpoint join_sp (l : list string) : string :=
  match l with
  | [] => ""
  | [x] => x
  | x :: r => x +:+ " " +:+ join_sp r
  end.

(** Truthiness of an optional string, an optional integer. *)
Definition truthy_str (o : option string) : bool :=
  match o with Some s => negb (is_empty s) | None => false end.

Definition truthy_int (o : option Z) : bool :=
  match o with Some z => negb (z =? 0) | None => false end.

(** [f"{x}"] and [%s] of an optional string: [None] prints as "None". *)
Definition fmt (o : option string) : string :=
  match o with Some s => s | None => "None" end.

Definition fmt_int (o : option Z) : string :=
  match o with Some z => pretty z | None => "None" end.

End PyStr.

Import PyStr.

(** ** The password strength predicate *)

Definition is_upper (c : ascii) : bool := in_range 65 90 c.
Definition is_lower (c : ascii) : bool := in_range 97 122 c.
Definition is_digit (c : ascii) : bool := in_range 48 57 c.

(** The fourth character class of the pattern, in the order of the source:
    the 32 punctuation characters of ASCII and the space. *)
Definition punct_chars : list ascii :=
  ["~"; "`"; "!"; "@"; "#"; "$"; "%"; "^"; "&"; "*"; "("; ")"; "_"; "-"; "+";
   "="; "{"; "["; "}"; "]"; "|"; BSL; ":"; ";"; DQ; "'"; "<"; ","; ">"; ".";
   "?"; "/"; " "]%char.

Definition is_punct (c : ascii) : bool :=
  existsb (Ascii.eqb c) punct_chars.

(** The lookahead [(?=.*[C])] tried at the start of [s]: [.] matches every
    character but the line feed, so the search for a character of the class
    stops at the first line feed. *)
Fixpoint lookahead (C : ascii -> bool) (s : string) : bool :=
  match s with
  | EmptyString => false
  | String c r => C c || (negb (Ascii.eqb c LF) && lookahead C r)
  end.

(** The pattern, four lookaheads in sequence, matched at the start of [s]. *)
Definition pattern_at (s : string) : bool :=
  lookahead is_upper s && lookahead is_lower s &&
  lookahead is_digit s && lookahead is_punct s.

(** [re.search(pattern, s) is not None]: the pattern is tried at every
    position of [s], the end included. *)
Fixpoint re_search (s : string) : bool :=
  pattern_at s ||
  match s with
  | EmptyString => false
  | String _ r => re_search r
  end.

Definition check_password_strength (password : string) : bool :=
  let weak_pass := (len password <? 12) || negb (re_search password) in
  if weak_pass then false else true.

(** What the specification asks of a strong password. *)
Fixpoint has_class (C : ascii -> bool) (s : string) : bool :=
  match s with
  | EmptyString => false
  | String c r => C c || has_class C r
  end.

Definition spec_strong (password : string) : bool :=
  (12 <=? len password) && has_class is_upper password &&
  has_class is_lower password && has_class is_digit password &&
  has_class is_punct password.

(** ** Python values, exceptions and the result of a pure computation *)

Inductive pyexc : Type := IndexError | KeyError | AttributeError | TypeError.

Inductive res (A : Type) : Type :=
| Ok (a : A)
| Err (e : pyexc).
Arguments Ok {A} a.
Arguments Err {A} e.

Definition res_bind {A B : Type} (x : res A) (f : A -> res B) : res B :=
  match x with Ok a => f a | Err e => Err e end.

(** A value stored in [curr_auth[device]]: a string ("yes", "no") or a list
    of strings (names, indices). *)
Inductive pyval : Type :=
| PStr (s : string)
| PList (l : list string).

#[global] Instance pyval_eq_dec : EqDecision pyval.
Proof. solve_decision. Defined.

(** [v == s] for a string [s]: a list never equals a string. *)
Definition pyval_eqb (v : pyval) (s : string) : bool :=
  match v with PStr t => String.eqb t s | PList _ => false end.

(** [x in v]: membership in a list, substring of a string. *)
Definition pyval_in (x : string) (v : pyval) : bool :=
  match v with
  | PList l => existsb (String.eqb x) l
  | PStr t => contains x t
  end.

(** [curr_auth[device]], a dictionary with string keys. *)
Abbreviation pydict := (gmap string pyval).

Definition has_key (k : string) (d : pydict) : bool :=
  match d !! k with Some _ => true | None => false end.

(** [d[k]] *)
Definition getitem (k : string) (d : pydict) : res pyval :=
  match d !! k with Some v => Ok v | None => Err KeyError end.

(** [d[k].append(x)] *)
Definition dict_append (k x : string) (d : pydict) : res pydict :=
  match d !! k with
  | None => Err KeyError
  | Some (PList l) => Ok (<[k := PList (l ++ [x])]> d)
  | Some (PStr _) => Err AttributeError
  end.

(** [if k not in d.keys(): d[k] = []] *)
Definition setdefault_nil (k : string) (d : pydict) : pydict :=
  if negb (has_key k d) then <[k := PList []]> d else d.

(** ** The parser of the status text: the loop of [get_auth_details] *)

Inductive flow : Type := Continue | Break.

(** One turn of the loop on a line already split into its tokens. *)
Definition parse_line (device : option string) (line : list string) (d : pydict)
  : res (flow * pydict) :=
  match line !! 0%nat with
  | None => Err IndexError
  | Some line0 =>
      if bool_decide (Some line0 = device) then
        let d := <["initialized" := PStr "no"]> d in
        let d := <["locked" := PStr "no"]> d in
        match line !! 1%nat with
        | None => Err IndexError
        | Some line1 =>
            if negb (String.eqb line1 "uninitialized") then
              let d := <["initialized" := PStr "yes"]> d in
              if String.eqb line1 "locked"
              then Ok (Continue, <["locked" := PStr "yes"]> d)
              else Ok (Continue, d)
            else Ok (Break, d)
        end
      else if contains_char "#" line0 then
        let auth_index := line0 in
        match line !! 1%nat with
        | None => Err IndexError
        | Some line1 =>
            let auth_type := lower line1 in
            let auth_name := if (2 <? length line)%nat then line !! 2%nat else None in
            let d := setdefault_nil auth_type d in
            res_bind (if truthy_str auth_name
                      then dict_append auth_type (fmt auth_name) d else Ok d) (fun d =>
            let d := setdefault_nil "index" d in
            let d := setdefault_nil "auth_names" d in
            res_bind (dict_append "index" (drop1 auth_index) d) (fun d =>
            res_bind (if truthy_str auth_name
                      then dict_append "auth_names" (fmt auth_name) d else Ok d) (fun d =>
            Ok (Continue, d))))
        end
      else Ok (Continue, d)
  end.

(** [for line in stdout_lines[1:]: line = line.split() ...] *)
Fixpoint parse_lines (device : option string) (lines : list string) (d : pydict)
  : res pydict :=
  match lines with
  | [] => Ok d
  | line :: rest =>
      match parse_line device (split line) d with
      | Err e => Err e
      | Ok (Break, d') => Ok d'
      | Ok (Continue, d') => parse_lines device rest d'
      end
  end.

(** The part of [get_auth_details] that follows a successful status command:
    from the standard output to [curr_auth[device]]. *)
Definition parse (device : option string) (stdout : string) : res pydict :=
  parse_lines device (tail (splitlines stdout)) ∅.

(** ** The module: parameters, results, programs *)

Inductive action_t : Type := initialize | unlock | add | check | delete.
Inductive auth_type_t : Type := pwd | keyfile | pks.

Definition action_str (a : action_t) : string :=
  match a with
  | initialize => "initialize" | unlock => "unlock" | add => "add"
  | check => "check" | delete => "delete"
  end.

Definition auth_type_str (t : auth_type_t) : string :=
  match t with pwd => "pwd" | keyfile => "keyfile" | pks => "pks" end.

Definition auth_type_eqb (a b : auth_type_t) : bool :=
  match a, b with
  | pwd, pwd | keyfile, keyfile | pks, pks => true
  | _, _ => false
  end.

(** [module.params], after the argument specification of [main]. *)
Record params : Type := mkParams {
  action : action_t;
  auth_type : option auth_type_t;
  auth_name : option string;
  password : option string;
  auth_detail : option string;
  auth_index : option Z;
  device : option string;
  auto_key_protection : bool;
  force : bool
}.

(** The global [results] dictionary. *)
Record results : Type := mkResults {
  res_changed : bool;
  res_cmd : string;
  res_msg : string;
  res_rc : Z;
  res_stdout : string;
  res_stderr : string;
  res_lv_facts : string;
  res_vg_facts : string;
  res_pv_facts : string;
  res_meta_facts : string;
  res_conv_facts : string
}.

Definition results0 : results :=
  mkResults false "" "" 0 "" "" "" "" "" "" "".

Definition with_changed (b : bool) (r : results) : results :=
  mkResults b (res_cmd r) (res_msg r) (res_rc r) (res_stdout r) (res_stderr r)
    (res_lv_facts r) (res_vg_facts r) (res_pv_facts r) (res_meta_facts r)
    (res_conv_facts r).

Definition with_cmd (s : string) (r : results) : results :=
  mkResults (res_changed r) s (res_msg r) (res_rc r) (res_stdout r) (res_stderr r)
    (res_lv_facts r) (res_vg_facts r) (res_pv_facts r) (res_meta_facts r)
    (res_conv_facts r).

Definition with_msg (s : string) (r : results) : results :=
  mkResults (res_changed r) (res_cmd r) s (res_rc r) (res_stdout r) (res_stderr r)
    (res_lv_facts r) (res_vg_facts r) (res_pv_facts r) (res_meta_facts r)
    (res_conv_facts r).

Definition with_rc (z : Z) (r : results) : results :=
  mkResults (res_changed r) (res_cmd r) (res_msg r) z (res_stdout r) (res_stderr r)
    (res_lv_facts r) (res_vg_facts r) (res_pv_facts r) (res_meta_facts r)
    (res_conv_facts r).

Definition with_stderr (s : string) (r : results) : results :=
  mkResults (res_changed r) (res_cmd r) (res_msg r) (res_rc r) (res_stdout r) s
    (res_lv_facts r) (res_vg_facts r) (res_pv_facts r) (res_meta_facts r)
    (res_conv_facts r).

(** What [module.run_command] returns: [(rc, stdout, stderr)]. *)
Definition response : Type := Z * string * string.

(** A program: it returns, raises, ends the process through [exit_json] or
    [fail_json], or runs a command and goes on with its answer. *)
Inductive prog (A : Type) : Type :=
| Ret (a : A)
| Raise (e : pyexc)
| ExitJson (r : results)
| FailJson (r : results)
| Run (cmd : string) (k : response -> prog A).
Arguments Ret {A} a.
Arguments Raise {A} e.
Arguments ExitJson {A} r.
Arguments FailJson {A} r.
Arguments Run {A} cmd k.

Fixpoint prog_bind {A B : Type} (p : prog A) (f : A -> prog B) : prog B :=
  match p with
  | Ret a => f a
  | Raise e => Raise e
  | ExitJson r => ExitJson r
  | FailJson r => FailJson r
  | Run c k => Run c (fun x => prog_bind (k x) f)
  end.

(** A computation of the module: a program over the global [results]. *)
Definition M (A : Type) : Type := results -> prog (A * results).

#[global] Instance M_ret : MRet M := fun A a r => Ret (a, r).
#[global] Instance M_bind : MBind M :=
  fun A B f m r => prog_bind (m r) (fun ar => f (fst ar) (snd ar)).

Definition raise {A : Type} (e : pyexc) : M A := fun _ => Raise e.
Definition exit_json {A : Type} : M A := fun r => ExitJson r.
Definition fail_json {A : Type} : M A := fun r => FailJson r.
Definition run_command (cmd : string) : M response :=
  fun r => Run cmd (fun x => Ret (x, r)).
Definition modify (f : results -> results) : M unit := fun r => Ret (tt, f r).
Definition get_results : M results := fun r => Ret (r, r).
Definition lift_res {A : Type} (x : res A) : M A :=
  match x with Ok a => mret a | Err e => raise e end.

(** [if c: body], where [body] may end the process. *)
Definition when (c : bool) (body : M unit) : M unit :=
  if c then body else mret tt.

(** ** The expect scripts

    Each entry of [expectPrompts] is a format string; [template % (a, b, ...)]
    is the function below applied to [a], [b], ...  The scripts are built
    from lines [expect "..."; ] and [send "...\r"; ], the backslash and the
    letter r being two characters of the script. *)

Module expectPrompts.

Definition dq : string := String DQ "".
Definition bsl : string := String BSL "".

Definition head_ (spawned : string) : string :=
  "/usr/bin/expect -c '" +:+ "spawn " +:+ spawned +:+ "; ".
Definition expect_ (s : string) : string :=
  "expect " +:+ dq +:+ s +:+ dq +:+ "; ".
Definition send_ (s : string) : string :=
  "send " +:+ dq +:+ s +:+ bsl +:+ "r" +:+ dq +:+ "; ".
Definition no_timeout : string := "set timeout -1; ".
Definition added_ (name : string) : string :=
  "expect " +:+ dq +:+ "Passphrase authentication method with name " +:+
  bsl +:+ dq +:+ name +:+ bsl +:+ dq +:+ " added successfully." +:+ dq +:+ "'".
Definition exit5_ (s : string) : string :=
  "expect " +:+ dq +:+ s +:+ dq +:+ " { exit 5 } '".

Definition authinit_weak_pwd (a b c : string) : string :=
  head_ a +:+
  expect_ "Enter Passphrase:" +:+
  send_ b +:+
  expect_ "Please confirm usage of an unsecure passphrase (y|n): " +:+
  send_ "y" +:+
  expect_ "Confirm Passphrase:" +:+
  send_ c +:+
  no_timeout +:+
  added_ "initpwd".

Definition authinit_strong_pwd (a b c : string) : string :=
  head_ a +:+
  expect_ "Enter Passphrase: " +:+
  send_ b +:+
  expect_ "Confirm Passphrase: " +:+
  send_ c +:+
  no_timeout +:+
  added_ "initpwd".

Definition authadd_weak_pwd (a b c d : string) : string :=
  head_ a +:+
  expect_ "Enter Passphrase:" +:+
  send_ b +:+
  expect_ "Please confirm usage of an unsecure passphrase (y|n): " +:+
  send_ "y" +:+
  expect_ "Confirm Passphrase:" +:+
  send_ c +:+
  no_timeout +:+
  added_ d.

Definition authadd_strong_pwd (a b c d : string) : string :=
  head_ a +:+
  expect_ "Enter Passphrase: " +:+
  send_ b +:+
  expect_ "Confirm Passphrase: " +:+
  send_ c +:+
  no_timeout +:+
  added_ d.

Definition unlock (a b c : string) : string :=
  head_ a +:+
  expect_ "Enter Passphrase: " +:+
  send_ b +:+
  expect_ "Wrong passphrase. Try again (2/3)" +:+
  expect_ "Enter Passphrase: " +:+
  send_ "wrong" +:+
  expect_ "Wrong passphrase. Try again (3/3)" +:+
  expect_ "Enter Passphrase: " +:+
  send_ "wrong" +:+
  no_timeout +:+
  exit5_ ("hdcryptmgr authunlock failed for device " +:+ c +:+ ".").

Definition authdelete (a b : string) : string :=
  head_ a +:+
  expect_ "Enter Passphrase: " +:+
  send_ b +:+
  expect_ "Wrong passphrase. Try again (2/3)" +:+
  expect_ "Enter Passphrase: " +:+
  send_ "wrong" +:+
  expect_ "Wrong passphrase. Try again (3/3)" +:+
  expect_ "Enter Passphrase: " +:+
  send_ "wrong" +:+
  no_timeout +:+
  exit5_ "3020-0386 Unable to check selected authentication method.".

Definition authcheck (a b : string) : string :=
  head_ a +:+
  expect_ "Enter Passphrase:" +:+
  send_ b +:+
  expect_ "Enter Passphrase:" +:+
  send_ "Wrong" +:+
  expect_ "Enter Passphrase:" +:+
  send_ "Wrong" +:+
  no_timeout +:+
  exit5_ "3020-0464 hdcryptmgr authcheck failed for device".

End expectPrompts.

(** ** Helper functions *)

(** [if rc:] *)
Definition nonzero (rc : Z) : bool := negb (rc =? 0).

Definition lv_exists (name : option string) : M bool :=
  let cmd := "lslv " +:+ fmt name in
  '(rc, stdout, stderr) ← run_command cmd;
  modify (with_cmd cmd);;
  modify (with_rc rc);;
  if nonzero rc then mret false else mret true.

(** The status command of [get_auth_details]. *)
Definition showlv_cmd (device : option string) : string :=
  "hdcryptmgr showlv" +:+ (" " +:+ fmt device +:+ " -v").

Definition get_auth_details (device : option string) : M pydict :=
  let cmd := showlv_cmd device in
  '(rc, stdout, stderr) ← run_command cmd;
  when (nonzero rc) (
    modify (with_stderr stderr);;
    modify (with_rc rc);;
    modify (with_msg "Could not get the details about current authentication methods.");;
    fail_json);;
  lift_res (parse device stdout).

(** [curr_auth[device][k]] *)
Definition lookup_state (k : string) (curr_auth : pydict) : M pyval :=
  lift_res (getitem k curr_auth).

(** [" ".join(cmd)] where the last element of [cmd] is the device: joining a
    list that holds [None] raises [TypeError]. *)
Definition join_cmd (cmd : list string) (device : option string) : M string :=
  match device with
  | Some dev => mret (join_sp (cmd ++ [dev]))
  | None => raise TypeError
  end.

(** [password != "" and not password] *)
Definition password_missing (password : option string) : bool :=
  negb (bool_decide (password = Some "")) && negb (truthy_str password).

(** [check_password_strength(password)]: [len(None)] raises [TypeError]. *)
Definition check_strength (password : option string) : M bool :=
  match password with
  | Some p => mret (check_password_strength p)
  | None => raise TypeError
  end.

Definition fail_msg_of (cmd : string) : string :=
  "The following command failed: " +:+ cmd +:+ ". Check stderr for more information.".

(** ** Action handler functions *)

Definition auth_init (module : params) : M string :=
  let device := device module in
  curr_auth ← get_auth_details device;
  initialized ← lookup_state "initialized" curr_auth;
  when (pyval_eqb initialized "yes") (
    modify (with_msg "No need to initialize, the LV is already initialized.");;
    exit_json);;
  let cmd := ["/usr/sbin/hdcryptmgr authinit"] in
  let cmd := if truthy_str (auth_detail module)
             then cmd ++ ["-e " +:+ fmt (auth_detail module)] else cmd in
  let cmd := if truthy_str (auth_name module)
             then cmd ++ ["-n " +:+ fmt (auth_name module)] else cmd in
  let password := password module in
  joined_cmd ← join_cmd cmd device;
  let success_msg :=
    "Successfully initialized authentication method, command: " +:+ joined_cmd in
  let fail_msg := fail_msg_of joined_cmd in
  strong ← check_strength password;
  let cmd := if negb strong
             then expectPrompts.authinit_weak_pwd joined_cmd (fmt password) (fmt password)
             else expectPrompts.authinit_strong_pwd joined_cmd (fmt password) (fmt password) in
  '(rc, stdout, stderr) ← run_command cmd;
  when (nonzero rc) (
    modify (with_stderr stderr);;
    modify (with_rc rc);;
    modify (with_msg fail_msg);;
    fail_json);;
  mret success_msg.

(** [f"{type}"] of the [auth_type] parameter. *)
Definition fmt_type (t : option auth_type_t) : string :=
  match t with Some t => auth_type_str t | None => "None" end.

Definition is_type (t : option auth_type_t) (x : auth_type_t) : bool :=
  match t with Some t => auth_type_eqb t x | None => false end.

(** [x in curr_auth[device][k]], used after [k in curr_auth[device].keys()]. *)
Definition member_of (k x : string) (curr_auth : pydict) : bool :=
  match curr_auth !! k with Some v => pyval_in x v | None => false end.

(** The end shared by [auth_delete], [auth_unlock] and [auth_check]: run the
    command and report its return code. *)
Definition run_and_report (cmd wrong_secret_msg fail_msg : string) : M unit :=
  '(rc, stdout, stderr) ← run_command cmd;
  when (nonzero rc) (
    (if rc =? 5
     then modify (with_msg wrong_secret_msg)
     else modify (with_msg fail_msg));;
    modify (with_stderr stderr);;
    modify (with_rc rc);;
    fail_json).

Definition auth_add (module : params) : M string :=
  let device := device module in
  curr_auth ← get_auth_details device;
  initialized ← lookup_state "initialized" curr_auth;
  when (pyval_eqb initialized "no") (
    modify (with_msg
      "The provided LV is uninitialized, you can not add authentication methods.");;
    fail_json);;
  let cmd := "/usr/sbin/hdcryptmgr authadd" in
  let type := auth_type module in
  when (negb (bool_decide (is_Some type))) (
    modify (with_msg "You need to specify the type of authentication method to use.");;
    fail_json);;
  let cmd := cmd +:+ (" -t " +:+ fmt_type type) in
  let method_detail := auth_detail module in
  when (negb (truthy_str method_detail) && is_type type keyfile) (
    modify (with_msg
      "You need to provide the key file's location in auth_detail, when auth_type is set to keyfile.");;
    fail_json);;
  let cmd := if truthy_str method_detail
             then cmd +:+ (" -m " +:+ fmt method_detail) else cmd in
  let name := auth_name module in
  when (truthy_str name &&
        (has_key "auth_names" curr_auth && member_of "auth_names" (fmt name) curr_auth)) (
    modify (with_msg
      "The provided authentication method's name is already present, kindly use a different one.");;
    fail_json);;
  let cmd := if truthy_str name then cmd +:+ (" -n " +:+ fmt name) else cmd in
  let cmd := cmd +:+ (" " +:+ fmt device) in
  let success_msg := "Successfully added authentication method, command: " +:+ cmd in
  let fail_msg := fail_msg_of cmd in
  cmd ← (if is_type type pwd then
           let password := password module in
           when (password_missing password) (
             modify (with_msg "In case of pwd auth type, you need to provide password.");;
             fail_json);;
           strong ← check_strength password;
           mret (if negb strong
                 then expectPrompts.authadd_weak_pwd cmd (fmt password) (fmt password) (fmt name)
                 else expectPrompts.authadd_strong_pwd cmd (fmt password) (fmt password) (fmt name))
         else
           when (is_type type pks && has_key "pks" curr_auth) (
             modify (with_msg
               "PKS authentication method already exists, can not add a new one.");;
             fail_json);;
           mret cmd);
  '(rc, stdout, stderr) ← run_command cmd;
  when (nonzero rc) (
    modify (with_stderr stderr);;
    modify (with_rc rc);;
    modify (with_msg fail_msg);;
    fail_json);;
  mret success_msg.

Definition auth_delete (module : params) : M string :=
  let device := device module in
  curr_auth ← get_auth_details device;
  let cmd := "/usr/sbin/hdcryptmgr authdelete" in
  let type := auth_type module in
  when (negb (bool_decide (is_Some type))) (
    modify (with_msg
      "Please provide the authentication type of the method that you want to delete.");;
    fail_json);;
  let cmd := cmd +:+ (" -t " +:+ fmt_type type) in
  let auth_detail := auth_detail module in
  let cmd := if truthy_str auth_detail
             then cmd +:+ (" -m " +:+ fmt auth_detail) else cmd in
  let index := auth_index module in
  when (truthy_int index &&
        (negb (has_key "index" curr_auth) ||
         negb (member_of "index" (fmt_int index) curr_auth))) (
    modify (with_msg "The provided auth_index does not exist for this device's methods.");;
    fail_json);;
  let cmd := if truthy_int index then cmd +:+ (" -i " +:+ fmt_int index) else cmd in
  let name := auth_name module in
  when (truthy_str name &&
        (negb (has_key "auth_names" curr_auth) ||
         negb (member_of "auth_names" (fmt name) curr_auth))) (
    modify (with_msg "The provided auth_name does not exist for this device's methods.");;
    fail_json);;
  let cmd := if truthy_str name then cmd +:+ (" -n " +:+ fmt name) else cmd in
  when (negb (truthy_str name) && negb (truthy_int index)) (
    modify (with_msg
      "You need to either provide the name or index of the method that you want to delete.");;
    fail_json);;
  let cmd := if force module then cmd +:+ " -f" else cmd in
  let cmd := cmd +:+ (" " +:+ fmt device) in
  let success_msg := "Successfully deleted the authentication method, command: " +:+ cmd in
  let fail_msg := fail_msg_of cmd in
  cmd ← (if is_type type pwd then
           let password := password module in
           when (password_missing password) (
             modify (with_msg "In case of pwd auth type, you need to provide password.");;
             fail_json);;
           mret (expectPrompts.authdelete cmd (fmt password))
         else
           when (is_type type keyfile && negb (truthy_str auth_detail)) (
             modify (with_msg "You need to provide the location of key file with type=keyfile.");;
             fail_json);;
           mret cmd);
  run_and_report cmd
    "Could not delete the auth method, incorrect password provided." fail_msg;;
  mret success_msg.

Definition auth_unlock (module : params) : M string :=
  let device := device module in
  curr_auth_details ← get_auth_details device;
  locked ← lookup_state "locked" curr_auth_details;
  when (pyval_eqb locked "no") (
    modify (with_msg "The provided device is already unlocked.");;
    exit_json);;
  let cmd := ["/usr/sbin/hdcryptmgr authunlock"] in
  let auth_type := auth_type module in
  when (negb (bool_decide (is_Some auth_type))) (
    modify (with_msg "You need to provide the auth_type that you want to use.");;
    fail_json);;
  let cmd := cmd ++ ["-t " +:+ fmt_type auth_type] in
  let auth_detail := auth_detail module in
  let cmd := if truthy_str auth_detail
             then cmd ++ ["-m " +:+ fmt auth_detail] else cmd in
  when (auto_key_protection module) (
    when (bool_decide (is_Some auth_type) || truthy_str auth_detail) (
      modify (with_msg
        "Can not use auth_detail or auth_type when auth_key_protection is set.");;
      fail_json));;
  let cmd := if auto_key_protection module then cmd ++ ["-A"] else cmd in
  cmd ← join_cmd cmd device;
  let success_msg := "Successfully unlocked the authentication method, command: " +:+ cmd in
  let fail_msg := fail_msg_of cmd in
  cmd ← (if is_type auth_type pwd then
           let password := password module in
           when (password_missing password) (
             modify (with_msg "You need to provide password in case of pwd auth_type");;
             fail_json);;
           mret (expectPrompts.unlock cmd (fmt password) (fmt device))
         else
           when (is_type auth_type keyfile && negb (truthy_str auth_detail)) (
             modify (with_msg
               "You need to provide the location in auth_detail, when type = keyfile.");;
             fail_json);;
           mret cmd);
  run_and_report cmd
    "Could not unlock the device using the provided auth method, incorrect password provided."
    fail_msg;;
  mret success_msg.

Definition auth_check (module : params) : M string :=
  let cmd := ["/usr/sbin/hdcryptmgr authcheck"] in
  let auth_type := auth_type module in
  when (negb (bool_decide (is_Some auth_type))) (
    modify (with_msg "You need to provide the authentication type for action=check.");;
    fail_json);;
  let cmd := cmd ++ ["-t " +:+ fmt_type auth_type] in
  let auth_detail := auth_detail module in
  let cmd := if truthy_str auth_detail
             then cmd ++ ["-m " +:+ fmt auth_detail] else cmd in
  let index := auth_index module in
  let cmd := if truthy_int index then cmd ++ ["-i " +:+ fmt_int index] else cmd in
  let name := auth_name module in
  let cmd := if truthy_str name then cmd ++ ["-n " +:+ fmt name] else cmd in
  cmd ← join_cmd cmd (device module);
  let success_msg := "Successfully checked the authentication method, command: " +:+ cmd in
  let fail_msg := fail_msg_of cmd in
  cmd ← (if is_type auth_type pwd then
           let password := password module in
           when (password_missing password) (
             modify (with_msg "You need to provide password in case of pwd auth_type");;
             fail_json);;
           mret (expectPrompts.authcheck cmd (fmt password))
         else
           when (is_type auth_type keyfile) (
             when (negb (truthy_int index) && negb (truthy_str name)) (
               modify (with_msg
                 "You need to provide either index or name in case of keyfile auth_type.");;
               fail_json);;
             when (negb (truthy_str auth_detail)) (
               modify (with_msg
                 "You need to provide keyfile path in auth_detail in case of keyfile auth_type.");;
               fail_json));;
           mret cmd);
  run_and_report cmd
    "Could not check the auth method, incorrect password provided." fail_msg;;
  mret success_msg.

(** ** Main function *)

(** [if not lv_exists:] tests the function object, which is always true. *)
Definition lv_exists_object_truthy : bool := true.

Definition action_is_check (a : action_t) : bool :=
  match a with check => true | _ => false end.

Definition main (module : params) : M unit :=
  let action := action module in
  let device := device module in
  get_auth_details device;;
  when (negb lv_exists_object_truthy) (
    modify (with_msg ("The provided device(" +:+ fmt device +:+ ") is not valid."));;
    fail_json);;
  m ← match action with
      | initialize => auth_init module
      | add => auth_add module
      | unlock => auth_unlock module
      | delete => auth_delete module
      | check => auth_check module
      end;
  modify (with_msg m);;
  when (negb (action_is_check action)) (modify (with_changed true));;
  r ← get_results;
  modify (with_msg (res_msg r +:+
    (". Action(" +:+ action_str action +:+ ") completed successfully.")));;
  exit_json.

(** ** Running a program against an environment *)

Inductive outcome (A : Type) : Type :=
| Returned (a : A)
| Raised (e : pyexc)
| Exited (r : results)
| Failed (r : results).
Arguments Returned {A} a.
Arguments Raised {A} e.
Arguments Exited {A} r.
Arguments Failed {A} r.

(** The environment answers the [n]-th command of a run. *)
Definition env : Type := nat -> string -> response.

(** The outcome of a program and the commands it ran, with their answers. *)
Fixpoint exec {A : Type} (p : prog A) (e : env) (n : nat)
  : outcome A * list (string * response) :=
  match p with
  | Ret a => (Returned a, [])
  | Raise x => (Raised x, [])
  | ExitJson r => (Exited r, [])
  | FailJson r => (Failed r, [])
  | Run c k =>
      let x := e n c in
      let '(o, t) := exec (k x) e (S n) in
      (o, (c, x) :: t)
  end.

(** The run of a sequence: the outcome [x] of its first part, then the run
    [g a k] of the rest on the value [a] after [k] commands. *)
Definition exec_then {A B : Type} (x : outcome A * list (string * response))
    (g : A -> nat -> outcome B * list (string * response))
  : outcome B * list (string * response) :=
  match x with
  | (Returned a, t) => (fst (g a (length t)), t ++ snd (g a (length t)))
  | (Raised x, t) => (Raised x, t)
  | (Exited r, t) => (Exited r, t)
  | (Failed r, t) => (Failed r, t)
  end.

(** A run of a computation of the module from the initial [results]. *)
Definition run {A : Type} (m : M A) (e : env) : outcome (A * results) * list (string * response) :=
  exec (m results0) e 0%nat.

(** The commands of a run. *)
Definition commands {A : Type} (x : outcome A * list (string * response)) : list string :=
  map fst (snd x).

(** ** Vocabulary of the properties *)

(** The handler that [main] calls for an action. *)
Definition handler (a : action_t) : params -> M string :=
  match a with
  | initialize => auth_init
  | add => auth_add
  | unlock => auth_unlock
  | delete => auth_delete
  | check => auth_check
  end.

(** The status command, asked as the [n]-th command, succeeds and its output
    parses to the state [d]. *)
Definition status_ok (e : env) (n : nat) (dev : option string) (d : pydict) : Prop :=
  exists out err, e n (showlv_cmd dev) = (0, out, err) /\ parse dev out = Ok d.

(** The status command of a handler and its answer, as an entry of a run. *)
Definition status_query (e : env) (n : nat) (dev : option string) : string * response :=
  (showlv_cmd dev, e n (showlv_cmd dev)).

(** The answer to the command of the action itself, in the commands of a run
    of its handler: [auth_check] asks for no status first. *)
Definition tool_response (a : action_t) (t : list (string * response)) : option response :=
  snd <$> (if action_is_check a then t !! 0%nat else t !! 1%nat).

(** The message of the three handlers for the return code 5. *)
Definition wrong_secret_msg (a : action_t) : string :=
  match a with
  | delete => "Could not delete the auth method, incorrect password provided."
  | unlock =>
      "Could not unlock the device using the provided auth method, incorrect password provided."
  | _ => "Could not check the auth method, incorrect password provided."
  end.

Definition is_failed {A : Type} (o : outcome A) : bool :=
  match o with Failed _ => true | _ => false end.

(** No value of the state is a string: neither [initialized] nor [locked]
    has been set. *)
Definition all_lists (d : pydict) : Prop :=
  forall k x, d !! k <> Some (PStr x).

(** Only [initialized] and [locked] hold strings. *)
Definition special (k : string) : bool :=
  String.eqb k "initialized" || String.eqb k "locked".

Definition strings_at_specials (d : pydict) : Prop :=
  forall k x, d !! k = Some (PStr x) -> special k = true.

(** The loop has not met an uninitialized resource. *)
Definition not_uninitialized (d : pydict) : Prop :=
  d !! "initialized" <> Some (PStr "no").

(** A line that is not a summary line of the resource, is not blank, and
    holds a type when it is a slot line. *)
Definition plain_line (dev : option string) (l : string) : bool :=
  match split l with
  | [] => false
  | line0 :: rest =>
      negb (bool_decide (Some line0 = dev)) &&
      (negb (contains_char "#" line0) || negb (bool_decide (rest = [])))
  end.

Definition no_summary (dev : option string) (stdout : string) : bool :=
  forallb (plain_line dev) (tail (splitlines stdout)).

(** A line that the loop skips: not blank, not the resource, no slot mark. *)
Definition unknown_line (dev : option string) (l : string) : bool :=
  match split l with
  | [] => false
  | line0 :: _ =>
      negb (bool_decide (Some line0 = dev)) && negb (contains_char "#" line0)
  end.

(** The type of a slot line is neither "initialized" nor "locked". *)
Definition slot_type_ok (dev : option string) (l : string) : bool :=
  match split l with
  | line0 :: line1 :: _ =>
      bool_decide (Some line0 = dev) || negb (contains_char "#" line0) ||
      negb (special (lower line1))
  | _ => true
  end.

Fixpoint ends_with_LF (s : string) : bool :=
  match s with
  | EmptyString => false
  | String c EmptyString => Ascii.eqb c LF
  | String _ r => ends_with_LF r
  end.

(** A status text of a header and content lines, ended by a line feed: the
    header is a line the loop would skip. *)
Definition wf_status (dev : option string) (stdout : string) : bool :=
  ends_with_LF stdout &&
  match splitlines stdout with
  | [] => false
  | header :: content =>
      unknown_line dev header && forallb (slot_type_ok dev) content
  end.

(** Every list of the state, appended to itself. *)
Definition twice (v : pyval) : pyval :=
  match v with PStr s => PStr s | PList l => PList (l ++ l) end.

(** The entries of a list of the state. *)
Definition entries (k : string) (d : pydict) : list string :=
  match d !! k with Some (PList l) => l | _ => [] end.

(** The string under a key of the state: the value of [initialized], of
    [locked]. *)
Definition flag (k : string) (d : pydict) : option string :=
  match d !! k with Some (PStr s) => Some s | _ => None end.

(** The state of a second pass over the same lines: what the first pass left
    under a key ([v0]), then what the lines put there ([va]). *)
Definition merge_val (v0 va : option pyval) : option pyval :=
  match va, v0 with
  | None, _ => v0
  | Some (PStr s), _ => Some (PStr s)
  | Some (PList l), Some (PList l0) => Some (PList (l0 ++ l))
  | Some (PList l), _ => Some (PList l)
  end.

(** [b] is the state [a] of a pass from the empty state, replayed on top of
    the state [d0]. *)
Definition extends (d0 a b : pydict) : Prop :=
  forall k, b !! k = merge_val (d0 !! k) (a !! k).

(** ** Examples: status texts and their states *)

Module Examples.

Definition line (s : string) : string := s +:+ String LF "".

(** A locked resource with one passphrase method. *)
Definition locked_status : string :=
  line "LV NAME" +:+ line "testlv locked" +:+ line "#0 Passphrase initpwd".

Definition locked_state : pydict :=
  <["initialized" := PStr "yes"]> (<["locked" := PStr "yes"]> (
  <["passphrase" := PList ["initpwd"]]> (<["index" := PList ["0"]]> (
  <["auth_names" := PList ["initpwd"]]> ∅)))).

(** The same resource, unlocked. *)
Definition unlocked_status : string :=
  line "LV NAME" +:+ line "testlv unlocked" +:+ line "#0 Passphrase initpwd".

Definition unlocked_state : pydict :=
  <["initialized" := PStr "yes"]> (<["locked" := PStr "no"]> (
  <["passphrase" := PList ["initpwd"]]> (<["index" := PList ["0"]]> (
  <["auth_names" := PList ["initpwd"]]> ∅)))).

(** An uninitialized resource. *)
Definition uninitialized_status : string :=
  line "LV NAME" +:+ line "testlv uninitialized".

Definition uninitialized_state : pydict :=
  <["initialized" := PStr "no"]> (<["locked" := PStr "no"]> ∅).

(** An environment that answers every command with the same status text and
    the return code 0. *)
Definition always (stdout : string) : env := fun _ _ => (0, stdout, "").

(** An environment that answers the [k]-th command with [x] and every other
    command with the status text. *)
Definition answering (stdout : string) (k : nat) (x : response) : env :=
  fun n _ => if (n =? k)%nat then x else (0, stdout, "").

End Examples.

(** ** Vocabulary of further properties *)

(** The part of a string before its first line feed. *)
Fixpoint first_line (s : string) : string :=
  match s with
  | EmptyString => ""
  | String c r => if Ascii.eqb c LF then "" else String c (first_line r)
  end.

(** Some line of [s] after the first one satisfies [P]; the lines are the
    parts of [s] between line feeds. *)
Fixpoint later_line (P : string -> bool) (s : string) : bool :=
  match s with
  | EmptyString => false
  | String c r =>
      if Ascii.eqb c LF then P (first_line r) || later_line P r
      else later_line P r
  end.

Definition some_line (P : string -> bool) (s : string) : bool :=
  P (first_line s) || later_line P s.

(** The four character classes of the pattern all occur in [s]. *)
Definition all_classes (s : string) : bool :=
  has_class is_upper s && has_class is_lower s &&
  has_class is_digit s && has_class is_punct s.

(** The values of [initialized] and [locked] that the loop can leave. *)
Definition flags_consistent (d : pydict) : Prop :=
  (flag "initialized" d = None /\ flag "locked" d = None) \/
  (flag "initialized" d = Some "no" /\ flag "locked" d = Some "no") \/
  (flag "initialized" d = Some "yes" /\ flag "locked" d = Some "no") \/
  (flag "initialized" d = Some "yes" /\ flag "locked" d = Some "yes").

(** Every name of a bucket is among [auth_names]. *)
Definition names_recorded (d : pydict) : Prop :=
  forall k x, k <> "index" -> x ∈ entries k d -> x ∈ entries "auth_names" d.

(** A command of an action: [hdcryptmgr auth...], bare or spawned by an
    expect script. *)
Definition action_command (c : string) : bool :=
  is_prefix "/usr/sbin/hdcryptmgr auth" c ||
  is_prefix "/usr/bin/expect -c 'spawn /usr/sbin/hdcryptmgr auth" c.

(** A command that the module may run: the status command or a command of
    an action. *)
Definition known_command (dev : option string) (c : string) : Prop :=
  c = showlv_cmd dev \/ action_command c = true.

(** The start of the message of a handler that returns. *)
Definition success_prefix (a : action_t) : string :=
  match a with
  | initialize => "Successfully initialized authentication method, command: "
  | add => "Successfully added authentication method, command: "
  | delete => "Successfully deleted the authentication method, command: "
  | unlock => "Successfully unlocked the authentication method, command: "
  | check => "Successfully checked the authentication method, command: "
  end.

(** The command of [auth_init] before it is wrapped in an expect script. *)
Definition init_command (module : params) (dev : string) : string :=
  join_sp (["/usr/sbin/hdcryptmgr authinit"] ++
           (if truthy_str (auth_detail module)
            then ["-e " +:+ fmt (auth_detail module)] else []) ++
           (if truthy_str (auth_name module)
            then ["-n " +:+ fmt (auth_name module)] else []) ++
           [dev]).

(** The expect script of [auth_init] for a command and a password. *)
Definition init_script (cmd password : string) : string :=
  if check_password_strength password
  then expectPrompts.authinit_strong_pwd cmd password password
  else expectPrompts.authinit_weak_pwd cmd password password.

(** The message of [get_auth_details] when the status command fails. *)
Definition status_failed (rc : Z) (err : string) (r : results) : results :=
  with_msg "Could not get the details about current authentication methods."
    (with_rc rc (with_stderr err r)).

(** [r'] is [r] but for its message. *)
Definition message_only (r r' : results) : Prop :=
  exists m, r' = with_msg m r.

(** [r'] is [r] but for the message, the return code and the standard error
    of a command that failed. *)
Definition failure_of (r r' : results) : Prop :=
  exists m rc err, rc <> 0 /\ r' = with_rc rc (with_stderr err (with_msg m r)).

(** The outcome that the answer of the command of an action decides: the
    return code 0 makes the handler return, with [r] as it was; any other
    return code makes it fail with that return code and the standard error
    of the command. *)
Definition decided_by (r : results) (x : response)
    (o : outcome (string * results)) : Prop :=
  let '(rc, _, err) := x in
  if nonzero rc
  then exists r', o = Failed r' /\ res_rc r' = rc /\ res_stderr r' = err
  else exists m, o = Returned (m, r).

(** What every run of the handler of [a] from [r] looks like: at most two
    commands, all of them known.  When the command of the action is run,
    its answer decides the outcome.  The handler returns only after a last
    command with the return code 0, with [r] as it was and a message that
    quotes the bare command of the action; it exits with [r] but for the
    message; it fails either likewise or with the return code of a
    command. *)
Definition handler_run (a : action_t) (dev : option string) (r : results)
    (x : outcome (string * results) * list (string * response)) : Prop :=
  (length (snd x) <= 2)%nat /\
  Forall (known_command dev) (map fst (snd x)) /\
  (forall y, tool_response a (snd x) = Some y -> decided_by r y (fst x)) /\
  match fst x with
  | Returned (m, r') =>
      r' = r /\
      (exists cmd, m = success_prefix a +:+ cmd /\
                   is_prefix "/usr/sbin/hdcryptmgr auth" cmd = true) /\
      exists c out err, last (snd x) = Some (c, (0, out, err))
  | Raised _ => True
  | Exited r' => message_only r r'
  | Failed r' => message_only r r' \/ failure_of r r'
  end.

(** The end of [main] after its handler: the handler's message, [changed]
    for every action but check, the closing sentence, [exit_json]. *)
Definition finish_main (a : action_t) (o : outcome (string * results))
  : outcome (unit * results) :=
  match o with
  | Returned (m, r) =>
      let r := with_msg m r in
      let r := if action_is_check a then r else with_changed true r in
      Exited (with_msg (res_msg r +:+
                (". Action(" +:+ action_str a +:+ ") completed successfully.")) r)
  | Raised x => Raised x
  | Exited r => Exited r
  | Failed r => Failed r
  end.

(** The name of the subcommand of [hdcryptmgr] that an action runs. *)
Definition action_name (a : action_t) : string :=
  match a with
  | initialize => "authinit"
  | add => "authadd"
  | delete => "authdelete"
  | unlock => "authunlock"
  | check => "authcheck"
  end.

(** The command of the action [a]: [hdcryptmgr] with the subcommand of [a],
    bare or spawned by an expect script. *)
Definition command_of (a : action_t) (c : string) : bool :=
  is_prefix ("/usr/sbin/hdcryptmgr " +:+ action_name a) c ||
  is_prefix ("/usr/bin/expect -c 'spawn /usr/sbin/hdcryptmgr " +:+ action_name a) c.

(** The commands of a run of the handler of [a], in their order: the status
    command once and first (the handler of check asks for no status), then
    at most one command, the command of [a]. *)
Definition handler_trace (a : action_t) (dev : option string) (cs : list string) : Prop :=
  if action_is_check a
  then cs = [] \/ exists c, cs = [c] /\ command_of a c = true
  else cs = [showlv_cmd dev] \/
       exists c, cs = [showlv_cmd dev; c] /\ command_of a c = true.

(** ** Properties of the password strength predicate *)

Section Strength.

Variable C : ascii -> bool.

Lemma lookahead_has_class (s : string) :
  lookahead C s = true -> has_class C s = true.
Proof.
  induction s as [|c r IH]; simpl; [done|].
  destruct (C c); simpl; [done|].
  destruct (Ascii.eqb c LF); simpl; [done|]. exact IH.
Qed.

Lemma has_class_lookahead (s : string) :
  contains_char LF s = false -> has_class C s = true -> lookahead C s = true.
Proof.
  induction s as [|c r IH]; simpl; [done|].
  destruct (Ascii.eqb c LF); simpl; [done|].
  intros Hn. destruct (C c); simpl; [done|]. exact (IH Hn).
Qed.

End Strength.

Lemma re_search_has_classes (s : string) :
  re_search s = true ->
  has_class is_upper s && has_class is_lower s &&
  has_class is_digit s && has_class is_punct s = true.
Proof.
  induction s as [|c r IH].
  - simpl. unfold pattern_at. simpl. done.
  - intros H. change (re_search (String c r)) with
      (pattern_at (String c r) || re_search r) in H.
    apply orb_true_iff in H as [H|H].
    + unfold pattern_at in H.
      repeat (apply andb_true_iff in H as [H ?]).
      rewrite !lookahead_has_class by done. done.
    + apply IH in H. repeat (apply andb_true_iff in H as [H ?]).
      simpl. rewrite H, H0, H1, H2. by rewrite !orb_true_r.
Qed.

Lemma pattern_at_search (s : string) :
  pattern_at s = true -> re_search s = true.
Proof. destruct s; cbn [re_search]; intros ->; done. Qed.

(** On a password without a line feed the predicate is the one the
    specification describes. *)
Lemma strength_without_newline (password : string) :
  contains_char LF password = false ->
  check_password_strength password = spec_strong password.
Proof.
  intros Hn. unfold check_password_strength, spec_strong.
  rewrite (Z.leb_antisym (len password) 12).
  destruct (len password <? 12); simpl; [done|].
  destruct (re_search password) eqn:Hs; simpl.
  - symmetry. by apply re_search_has_classes.
  - symmetry. apply not_true_iff_false. intros H.
    repeat (apply andb_true_iff in H as [H ?]).
    assert (pattern_at password = true) as Hp.
    { unfold pattern_at. by rewrite !has_class_lookahead. }
    rewrite (pattern_at_search _ Hp) in Hs. done.
Qed.

(** C8, at the failing input: sixteen characters on two lines, an uppercase
    letter on the first line and a lowercase letter, a digit and a
    punctuation character on the second.  The specification calls the
    password strong, [check_password_strength] answers that it is weak. *)
Theorem strength_across_lines :
  let password := "ABCDEF" +:+ String LF "abcdefg1!" in
  spec_strong password = true /\ check_password_strength password = false.
Proof. split; reflexivity. Qed.

(** ** The dictionary operations *)

Lemma has_key_true (k : string) (d : pydict) :
  has_key k d = true <-> is_Some (d !! k).
Proof.
  unfold has_key. destruct (d !! k); split; intros H; done || by destruct H.
Qed.

Lemma setdefault_nil_lookup (k k' : string) (d : pydict) :
  setdefault_nil k d !! k' =
  if bool_decide (k = k') && negb (has_key k d) then Some (PList []) else d !! k'.
Proof.
  unfold setdefault_nil. destruct (has_key k d); simpl.
  - by rewrite andb_false_r.
  - rewrite andb_true_r. case_bool_decide as Hk.
    + subst. apply lookup_insert_eq.
    + by apply lookup_insert_ne.
Qed.

Lemma setdefault_nil_is_Some (k : string) (d : pydict) :
  is_Some (setdefault_nil k d !! k).
Proof.
  rewrite setdefault_nil_lookup. rewrite bool_decide_eq_true_2 by done. simpl.
  destruct (has_key k d) eqn:H; simpl; [by apply has_key_true | by eexists].
Qed.

Lemma setdefault_nil_keeps (k k' : string) (d : pydict) :
  is_Some (d !! k') -> is_Some (setdefault_nil k d !! k').
Proof.
  intros H. rewrite setdefault_nil_lookup.
  destruct (bool_decide (k = k') && negb (has_key k d)); [by eexists | done].
Qed.

Lemma dict_append_Ok (k x : string) (d d' : pydict) :
  dict_append k x d = Ok d' ->
  exists l, d !! k = Some (PList l) /\ d' = <[k := PList (l ++ [x])]> d.
Proof.
  unfold dict_append. destruct (d !! k) as [[s|l]|]; try done.
  intros [= <-]. by exists l.
Qed.

Lemma all_lists_empty : all_lists ∅.
Proof. intros k x. by rewrite lookup_empty. Qed.

Lemma all_lists_insert (k : string) (l : list string) (d : pydict) :
  all_lists d -> all_lists (<[k := PList l]> d).
Proof.
  intros H k' x. rewrite lookup_insert. case_decide; [done | apply H].
Qed.

Lemma all_lists_setdefault (k : string) (d : pydict) :
  all_lists d -> all_lists (setdefault_nil k d).
Proof.
  intros H. unfold setdefault_nil.
  destruct (negb (has_key k d)); [by apply all_lists_insert | done].
Qed.

(** On a state without strings, appending under a present key succeeds. *)
Lemma all_lists_append (k x : string) (d : pydict) :
  all_lists d -> is_Some (d !! k) ->
  exists d', dict_append k x d = Ok d' /\ all_lists d' /\
             forall k', is_Some (d !! k') -> is_Some (d' !! k').
Proof.
  intros Hd [v Hv]. unfold dict_append. rewrite Hv.
  destruct v as [s|l]; [by destruct (Hd k s)|].
  eexists. split; [done|]. split; [by apply all_lists_insert|].
  intros k' Hk'. rewrite lookup_insert. by case_decide.
Qed.

(** ** The loop of the parser, line by line *)

(** A line without the resource name and without a slot mark is skipped. *)
Lemma parse_line_unknown (dev : option string) (l : string) (d : pydict) :
  unknown_line dev l = true -> parse_line dev (split l) d = Ok (Continue, d).
Proof.
  unfold unknown_line, parse_line.
  destruct (split l) as [|line0 rest]; [done|]. simpl.
  intros [H1 H2]%andb_true_iff.
  apply negb_true_iff in H1, H2. by rewrite H1, H2.
Qed.

(** A plain line goes through on a state without strings, and leaves it so. *)
Lemma parse_line_plain (dev : option string) (l : string) (d : pydict) :
  plain_line dev l = true -> all_lists d ->
  exists d', parse_line dev (split l) d = Ok (Continue, d') /\ all_lists d'.
Proof.
  unfold plain_line, parse_line.
  destruct (split l) as [|line0 rest]; [done|]. simpl.
  intros [H1 H2]%andb_true_iff Hd.
  apply negb_true_iff in H1. rewrite H1.
  destruct (contains_char "#" line0); [|by exists d].
  simpl in H2. apply negb_true_iff, bool_decide_eq_false in H2.
  destruct rest as [|line1 rest]; [done|]. simpl.
  set (auth_name := if (2 <? S (S (length rest)))%nat then _ else _).
  set (d1 := setdefault_nil (lower line1) d).
  assert (all_lists d1) as Hd1 by by apply all_lists_setdefault.
  assert (exists d2, (if truthy_str auth_name
                      then dict_append (lower line1) (fmt auth_name) d1
                      else Ok d1) = Ok d2 /\ all_lists d2) as (d2 & -> & Hd2).
  { destruct (truthy_str auth_name); [|by exists d1].
    destruct (all_lists_append (lower line1) (fmt auth_name) d1 Hd1)
      as (d2 & ? & ? & _); [apply setdefault_nil_is_Some | by exists d2]. }
  simpl.
  set (d3 := setdefault_nil "auth_names" (setdefault_nil "index" d2)).
  assert (all_lists d3) as Hd3 by by do 2 apply all_lists_setdefault.
  destruct (all_lists_append "index" (drop1 line0) d3 Hd3) as (d4 & -> & Hd4 & Hk).
  { apply setdefault_nil_keeps, setdefault_nil_is_Some. }
  simpl. destruct (truthy_str auth_name); [|by exists d4].
  destruct (all_lists_append "auth_names" (fmt auth_name) d4 Hd4) as (d5 & -> & Hd5 & _).
  { apply Hk, setdefault_nil_is_Some. }
  by exists d5.
Qed.

Lemma parse_lines_plain (dev : option string) (ls : list string) (d : pydict) :
  forallb (plain_line dev) ls = true -> all_lists d ->
  exists d', parse_lines dev ls d = Ok d' /\ all_lists d'.
Proof.
  revert d. induction ls as [|l ls IH]; intros d Hls Hd; simpl.
  - by exists d.
  - simpl in Hls. apply andb_true_iff in Hls as [Hl Hls].
    destruct (parse_line_plain dev l d Hl Hd) as (d' & -> & Hd').
    by apply IH.
Qed.

(** C5, as corrected: a status text without a summary line of the resource,
    whose lines after the first are not blank and whose slot lines hold a
    type, is parsed without an error, and the state that [parse] returns has
    neither [initialized] nor [locked] set: no entry of it is a string.  The
    empty text and the text of a header alone are among these texts. *)
Theorem parse_without_summary (dev : option string) (stdout : string) :
  no_summary dev stdout = true ->
  exists d, parse dev stdout = Ok d /\ all_lists d.
Proof.
  intros H. apply parse_lines_plain; [exact H | apply all_lists_empty].
Qed.

Lemma parse_without_summary_witness :
  exists d, parse (Some "testlv") ("LV NAME" +:+ String LF "#0 PKS" +:+ String LF "") = Ok d /\
            all_lists d.
Proof. apply parse_without_summary. reflexivity. Defined.

(** C5, the claim as stated fails: with no header and no summary line at
    all, [parse] returns a state, the empty one. *)
Lemma parse_empty_text : parse (Some "testlv") "" = Ok ∅.
Proof. reflexivity. Qed.

(** C6, at the failing input: a blank line between the header and the
    summary line is not skipped, [line[0]] raises [IndexError]. *)
Theorem parse_blank_line :
  parse (Some "testlv")
    ("LV NAME" +:+ String LF "" +:+ String LF "testlv locked" +:+ String LF "")
  = Err IndexError.
Proof. reflexivity. Qed.

(** ** Lines of a text written twice *)

Lemma splitlines_from_app (a b cur : string) (after_cr : bool) :
  ends_with_LF a = true ->
  splitlines_from (a +:+ b) cur after_cr =
  splitlines_from a cur after_cr ++ splitlines_from b "" false.
Proof.
  revert cur after_cr. induction a as [|c a IH]; intros cur after_cr H; [done|].
  destruct a as [|c' a'].
  - simpl in H. apply Ascii.eqb_eq in H. subst c. simpl.
    destruct after_cr; simpl; done.
  - specialize (fun cur cr => IH cur cr H).
    change (String c (String c' a') +:+ b) with (String c (String c' a' +:+ b)).
    cbn [splitlines_from].
    destruct (Ascii.eqb c LF && after_cr); [apply IH|].
    destruct (is_linebreak c); [by rewrite IH | apply IH].
Qed.

Lemma splitlines_twice (s : string) :
  ends_with_LF s = true ->
  splitlines (s +:+ s) = splitlines s ++ splitlines s.
Proof. intros H. by apply splitlines_from_app. Qed.

(** ** The break of the loop *)

Lemma not_uninitialized_insert (k : string) (l : list string) (d : pydict) :
  not_uninitialized d -> not_uninitialized (<[k := PList l]> d).
Proof.
  unfold not_uninitialized. intros H. rewrite lookup_insert. by case_decide.
Qed.

Lemma not_uninitialized_setdefault (k : string) (d : pydict) :
  not_uninitialized d -> not_uninitialized (setdefault_nil k d).
Proof.
  intros H. unfold setdefault_nil.
  destruct (negb (has_key k d)); [by apply not_uninitialized_insert | done].
Qed.

Lemma not_uninitialized_append (k x : string) (d d' : pydict) :
  dict_append k x d = Ok d' -> not_uninitialized d -> not_uninitialized d'.
Proof.
  intros (l & _ & ->)%dict_append_Ok H. by apply not_uninitialized_insert.
Qed.

Lemma not_uninitialized_append_if (c : bool) (k x : string) (d d' : pydict) :
  (if c then dict_append k x d else Ok d) = Ok d' ->
  not_uninitialized d -> not_uninitialized d'.
Proof.
  destruct c; [apply not_uninitialized_append | by intros [= <-]].
Qed.

(** A turn of the loop either goes on, and the resource has not been seen
    uninitialized, or breaks on an uninitialized resource, which is then
    not locked. *)
Lemma parse_line_flow (dev : option string) (line : list string)
    (d d' : pydict) (fl : flow) :
  not_uninitialized d ->
  parse_line dev line d = Ok (fl, d') ->
  (fl = Continue /\ not_uninitialized d') \/
  (fl = Break /\ d' !! "initialized" = Some (PStr "no") /\
   d' !! "locked" = Some (PStr "no")).
Proof.
  intros Hd. unfold parse_line.
  destruct (line !! 0%nat) as [line0|]; [|done].
  case_bool_decide.
  - destruct (line !! 1%nat) as [line1|]; [|done].
    destruct (String.eqb line1 "uninitialized"); simpl.
    + intros [= <- <-]. right. by simplify_map_eq.
    + destruct (String.eqb line1 "locked"); intros [= <- <-]; left;
        (split; [done|]); unfold not_uninitialized; by simplify_map_eq.
  - destruct (contains_char "#" line0); [|intros [= <- <-]; by left].
    destruct (line !! 1%nat) as [line1|]; [|done].
    set (auth_name := if (2 <? length line)%nat then _ else _).
    destruct (if truthy_str auth_name then _ else _) as [d2|] eqn:H2; [|done].
    simpl.
    destruct (dict_append "index" _ _) as [d4|] eqn:H4; [|done]. simpl.
    destruct (if truthy_str auth_name then dict_append "auth_names" _ _ else _)
      as [d5|] eqn:H5; [|done].
    simpl. intros [= <- <-]. left. split; [done|].
    eapply not_uninitialized_append_if; [exact H5|].
    eapply not_uninitialized_append; [exact H4|].
    do 2 apply not_uninitialized_setdefault.
    eapply not_uninitialized_append_if; [exact H2|].
    by apply not_uninitialized_setdefault.
Qed.

Lemma parse_lines_flow (dev : option string) (ls : list string) (d d' : pydict) :
  not_uninitialized d ->
  parse_lines dev ls d = Ok d' ->
  not_uninitialized d' \/
  (d' !! "initialized" = Some (PStr "no") /\ d' !! "locked" = Some (PStr "no")).
Proof.
  revert d. induction ls as [|l ls IH]; intros d Hd; simpl.
  - intros [= <-]. by left.
  - destruct (parse_line dev (split l) d) as [[fl d1]|] eqn:Hl; [|done].
    destruct (parse_line_flow _ _ _ _ _ Hd Hl) as [[-> Hd1]|(-> & ? & ?)].
    + by apply IH.
    + intros [= <-]. by right.
Qed.

(** The loop over two lists of lines: it stops in the first one when the
    resource is uninitialized, and goes through the second one otherwise. *)
Lemma parse_lines_app (dev : option string) (ls1 ls2 : list string) (d d1 : pydict) :
  not_uninitialized d ->
  parse_lines dev ls1 d = Ok d1 ->
  parse_lines dev (ls1 ++ ls2) d =
  if bool_decide (d1 !! "initialized" = Some (PStr "no")) then Ok d1
  else parse_lines dev ls2 d1.
Proof.
  revert d. induction ls1 as [|l ls1 IH]; intros d Hd; simpl.
  - intros [= <-]. by rewrite bool_decide_eq_false_2.
  - destruct (parse_line dev (split l) d) as [[fl d']|] eqn:Hl; [|done].
    destruct (parse_line_flow _ _ _ _ _ Hd Hl) as [[-> Hd']|(-> & ? & ?)].
    + by apply IH.
    + intros [= <-]. by rewrite bool_decide_eq_true_2.
Qed.

(** A state that [parse] returns for an uninitialized resource is not
    locked. *)
Lemma parse_uninitialized_unlocked (dev : option string) (stdout : string) (d : pydict) :
  parse dev stdout = Ok d ->
  d !! "initialized" = Some (PStr "no") -> d !! "locked" = Some (PStr "no").
Proof.
  intros Hp Hi. unfold parse in Hp.
  apply parse_lines_flow in Hp as [Hp|[_ Hp]]; [done| done |].
  unfold not_uninitialized. by rewrite lookup_empty.
Qed.

(** ** A second pass over the same lines *)

Lemma special_false (k : string) :
  special k = false -> k <> "initialized" /\ k <> "locked".
Proof.
  unfold special. intros [H1 H2]%orb_false_iff.
  by apply String.eqb_neq in H1, H2.
Qed.

Lemma strings_at_specials_insert_list (k : string) (l : list string) (d : pydict) :
  strings_at_specials d -> strings_at_specials (<[k := PList l]> d).
Proof.
  intros H k' x. rewrite lookup_insert. case_decide; [done | apply H].
Qed.

Lemma strings_at_specials_insert_str (k s : string) (d : pydict) :
  special k = true ->
  strings_at_specials d -> strings_at_specials (<[k := PStr s]> d).
Proof.
  intros Hk H k' x. rewrite lookup_insert. case_decide; [by subst | apply H].
Qed.

Lemma strings_at_specials_setdefault (k : string) (d : pydict) :
  strings_at_specials d -> strings_at_specials (setdefault_nil k d).
Proof.
  intros H. unfold setdefault_nil.
  destruct (negb (has_key k d)); [by apply strings_at_specials_insert_list | done].
Qed.

Lemma strings_at_specials_append_if (c : bool) (k x : string) (d d' : pydict) :
  (if c then dict_append k x d else Ok d) = Ok d' ->
  strings_at_specials d -> strings_at_specials d'.
Proof.
  destruct c; [|by intros [= <-]].
  intros (l & _ & ->)%dict_append_Ok. apply strings_at_specials_insert_list.
Qed.

Lemma parse_line_strings (dev : option string) (line : list string)
    (d d' : pydict) (fl : flow) :
  strings_at_specials d ->
  parse_line dev line d = Ok (fl, d') -> strings_at_specials d'.
Proof.
  intros Hd. unfold parse_line.
  destruct (line !! 0%nat) as [line0|]; [|done].
  case_bool_decide.
  - destruct (line !! 1%nat) as [line1|]; [|done].
    destruct (String.eqb line1 "uninitialized"); simpl;
      [|destruct (String.eqb line1 "locked")]; intros [= <- <-];
      repeat (apply strings_at_specials_insert_str; [done|]); done.
  - destruct (contains_char "#" line0); [|by intros [= <- <-]].
    destruct (line !! 1%nat) as [line1|]; [|done].
    set (auth_name := if (2 <? length line)%nat then _ else _).
    destruct (if truthy_str auth_name then _ else _) as [d2|] eqn:H2; [|done].
    simpl.
    destruct (dict_append "index" _ _) as [d4|] eqn:H4; [|done]. simpl.
    destruct (if truthy_str auth_name then dict_append "auth_names" _ _ else _)
      as [d5|] eqn:H5; [|done].
    simpl. intros [= <- <-].
    eapply strings_at_specials_append_if; [exact H5|].
    eapply (strings_at_specials_append_if true); [exact H4|].
    do 2 apply strings_at_specials_setdefault.
    eapply strings_at_specials_append_if; [exact H2|].
    by apply strings_at_specials_setdefault.
Qed.

Lemma parse_lines_strings (dev : option string) (ls : list string) (d d' : pydict) :
  strings_at_specials d ->
  parse_lines dev ls d = Ok d' -> strings_at_specials d'.
Proof.
  revert d. induction ls as [|l ls IH]; intros d Hd; simpl.
  - by intros [= <-].
  - destruct (parse_line dev (split l) d) as [[[] d1]|] eqn:Hl; [| |done].
    + apply IH. by eapply parse_line_strings.
    + intros [= <-]. by eapply parse_line_strings.
Qed.

Lemma extends_insert_str (d0 a b : pydict) (k s : string) :
  extends d0 a b -> extends d0 (<[k := PStr s]> a) (<[k := PStr s]> b).
Proof.
  intros H k'. rewrite !lookup_insert. case_decide; [done | apply H].
Qed.

Lemma extends_setdefault (d0 a b : pydict) (k : string) :
  special k = false -> strings_at_specials d0 ->
  extends d0 a b -> extends d0 (setdefault_nil k a) (setdefault_nil k b).
Proof.
  intros Hk H0 H k'. rewrite !setdefault_nil_lookup.
  case_bool_decide as Hkk; simpl; [subst k'|apply H].
  unfold has_key. pose proof (H k) as Hb.
  destruct (a !! k) as [va|] eqn:Ha.
  - simpl. rewrite Hb. by destruct va as [s|l], (d0 !! k) as [[s0|l0]|].
  - simpl in Hb. rewrite Hb. simpl.
    destruct (d0 !! k) as [[s0|l0]|] eqn:H0k; simpl.
    + apply H0 in H0k. congruence.
    + by rewrite app_nil_r.
    + done.
Qed.

Lemma extends_append (d0 a b a' : pydict) (k x : string) :
  dict_append k x a = Ok a' -> extends d0 a b ->
  exists b', dict_append k x b = Ok b' /\ extends d0 a' b'.
Proof.
  intros (l & Ha & ->)%dict_append_Ok H.
  pose proof (H k) as Hb. rewrite Ha in Hb. unfold dict_append.
  destruct (d0 !! k) as [[s0|l0]|] eqn:H0k; simpl in Hb; rewrite Hb;
    (eexists; split; [done|]); intros k'; rewrite !lookup_insert;
    (case_decide; [subst k'; rewrite H0k; simpl; by rewrite ?app_assoc | apply H]).
Qed.

Lemma extends_append_if (c : bool) (d0 a b a' : pydict) (k x : string) :
  (if c then dict_append k x a else Ok a) = Ok a' -> extends d0 a b ->
  exists b', (if c then dict_append k x b else Ok b) = Ok b' /\ extends d0 a' b'.
Proof.
  destruct c; [apply extends_append|]. intros [= <-] H. by exists b.
Qed.

(** A turn of the loop on a state replayed on top of [d0] does what it does
    on the state itself. *)
Lemma parse_line_extends (dev : option string) (l : string)
    (d0 a b a' : pydict) (fl : flow) :
  slot_type_ok dev l = true -> strings_at_specials d0 ->
  extends d0 a b ->
  parse_line dev (split l) a = Ok (fl, a') ->
  exists b', parse_line dev (split l) b = Ok (fl, b') /\ extends d0 a' b'.
Proof.
  unfold slot_type_ok, parse_line. intros Hok H0 H.
  destruct (split l) as [|line0 [|line1 rest]]; [done| |].
  - simpl. case_bool_decide; [done|].
    destruct (contains_char "#" line0); [done|].
    intros [= <- <-]. by exists b.
  - cbn [lookup list_lookup]. case_bool_decide as Hdev.
    + destruct (String.eqb line1 "uninitialized"); simpl;
        [|destruct (String.eqb line1 "locked")]; intros [= <- <-];
        (eexists; split; [done|]); by repeat apply extends_insert_str.
    + destruct (contains_char "#" line0); [|intros [= <- <-]; by exists b].
      simpl in Hok. apply negb_true_iff in Hok.
      set (auth_name := if (2 <? length _)%nat then _ else _).
      destruct (if truthy_str auth_name then _ else _) as [a2|] eqn:H2; [|done].
      simpl.
      destruct (dict_append "index" _ _) as [a4|] eqn:H4; [|done]. simpl.
      destruct (if truthy_str auth_name then dict_append "auth_names" _ _ else _)
        as [a5|] eqn:H5; [|done].
      simpl. intros [= <- <-].
      eapply extends_append_if in H2 as (b2 & -> & E2);
        [|by apply extends_setdefault].
      simpl.
      eapply extends_append in H4 as (b4 & -> & E4);
        [|do 2 (apply extends_setdefault; [done|done|]); exact E2].
      simpl.
      eapply extends_append_if in H5 as (b5 & -> & E5); [|exact E4].
      simpl. by exists b5.
Qed.

Lemma parse_lines_extends (dev : option string) (ls : list string)
    (d0 a b a' : pydict) :
  forallb (slot_type_ok dev) ls = true -> strings_at_specials d0 ->
  extends d0 a b ->
  parse_lines dev ls a = Ok a' ->
  exists b', parse_lines dev ls b = Ok b' /\ extends d0 a' b'.
Proof.
  intros Hls H0. revert a b.
  induction ls as [|l ls IH]; intros a b H; simpl.
  - intros [= <-]. by exists b.
  - simpl in Hls. apply andb_true_iff in Hls as [Hl Hls].
    destruct (parse_line dev (split l) a) as [[fl a1]|] eqn:Ha; [|done].
    destruct (parse_line_extends _ _ _ _ _ _ _ Hl H0 H Ha) as (b1 & -> & H1).
    destruct fl; [by apply IH|]. intros [= <-]. by exists b1.
Qed.

Lemma extends_twice (d b : pydict) : extends d d b -> b = twice <$> d.
Proof.
  intros H. apply map_eq. intros k. rewrite H, lookup_fmap.
  by destruct (d !! k) as [[s|l]|].
Qed.

Lemma flag_twice (k : string) (d : pydict) : flag k (twice <$> d) = flag k d.
Proof.
  unfold flag. rewrite lookup_fmap. by destruct (d !! k) as [[s|l]|].
Qed.

Lemma entries_twice (k : string) (d : pydict) :
  entries k (twice <$> d) = entries k d ++ entries k d.
Proof.
  unfold entries. rewrite lookup_fmap. by destruct (d !! k) as [[s|l]|].
Qed.

(** C7, as corrected: for a well-formed status text, a header and content
    lines ended by a line feed, parsing the text written twice succeeds when
    parsing it once does.  For an uninitialized resource the loop stops at
    the summary line and the state is the same.  Otherwise every list of the
    state (the method buckets, [index], [auth_names]) is the list of the
    single parse appended to itself: duplicates accumulate.  In both cases
    [initialized] and [locked] are the same, and each list has the same
    members as in the single parse. *)
Theorem parse_twice (dev : option string) (stdout : string) (d : pydict) :
  wf_status dev stdout = true ->
  parse dev stdout = Ok d ->
  let d2 := if bool_decide (d !! "initialized" = Some (PStr "no"))
            then d else twice <$> d in
  parse dev (stdout +:+ stdout) = Ok d2 /\
  (forall k, flag k d2 = flag k d) /\
  (forall k, entries k d2 =
             if bool_decide (d !! "initialized" = Some (PStr "no"))
             then entries k d else entries k d ++ entries k d) /\
  (forall k x, x ∈ entries k d2 <-> x ∈ entries k d).
Proof.
  intros [HLF Hwf]%andb_true_iff Hp d2. subst d2. split.
  - unfold parse in *. rewrite splitlines_twice by done.
    destruct (splitlines stdout) as [|header content]; [done|].
    apply andb_true_iff in Hwf as [Hh Hc]. simpl in Hp |- *.
    assert (not_uninitialized (∅ : pydict)) as He
      by (unfold not_uninitialized; by rewrite lookup_empty).
    rewrite (parse_lines_app _ _ _ _ _ He Hp).
    case_bool_decide; [done|].
    simpl. rewrite (parse_line_unknown _ _ _ Hh).
    assert (strings_at_specials d) as Hd.
    { eapply parse_lines_strings; [|exact Hp]. intros k x.
      by rewrite lookup_empty. }
    assert (extends d ∅ d) as Hx.
    { intros k. by rewrite lookup_empty. }
    destruct (parse_lines_extends _ _ _ _ _ _ Hc Hd Hx Hp) as (b & -> & Hb).
    by rewrite (extends_twice _ _ Hb).
  - case_bool_decide; (split; [|split]); intros;
      rewrite ?flag_twice, ?entries_twice, ?elem_of_app; done || tauto.
Qed.

Lemma parse_twice_witness :
  parse (Some "testlv") (Examples.locked_status +:+ Examples.locked_status) =
  Ok (if bool_decide (Examples.locked_state !! "initialized" = Some (PStr "no"))
      then Examples.locked_state else twice <$> Examples.locked_state).
Proof.
  refine (proj1 (parse_twice (Some "testlv") Examples.locked_status
                   Examples.locked_state _ _)); reflexivity.
Defined.

(** C7, the claim as stated fails: the text written twice gives every list
    twice its entries. *)
Lemma parse_twice_accumulates :
  let stdout := Examples.locked_status in
  exists d1 d2,
    parse (Some "testlv") stdout = Ok d1 /\
    parse (Some "testlv") (stdout +:+ stdout) = Ok d2 /\
    entries "passphrase" d1 = ["initpwd"] /\
    entries "passphrase" d2 = ["initpwd"; "initpwd"] /\
    entries "index" d1 = ["0"] /\ entries "index" d2 = ["0"; "0"] /\
    entries "auth_names" d1 = ["initpwd"] /\
    entries "auth_names" d2 = ["initpwd"; "initpwd"].
Proof. do 2 eexists. repeat split; reflexivity. Qed.

(** ** Runs of sequences *)

Lemma exec_prog_bind {A B : Type} (p : prog A) (f : A -> prog B) (e : env) (n : nat) :
  exec (prog_bind p f) e n =
  exec_then (exec p e n) (fun a k => exec (f a) e (k + n)%nat).
Proof.
  revert n. induction p as [a|x|r|r|c k IH]; intros n; cbn; try done.
  - by destruct (exec (f a) e n).
  - rewrite IH. destruct (exec (k (e n c)) e (S n)) as [[a| | |] t]; cbn; try done.
    rewrite Nat.add_succ_r.
    by destruct (exec (f a) e (S (length t + n))).
Qed.

Section Exec.

Context {A B : Type}.
Variables (g : A -> M B) (r : results) (e : env) (n : nat).

Lemma exec_bind_assoc {C : Type} (m : M C) (f : C -> M A) :
  exec (((m ≫= f) ≫= g) r) e n = exec ((m ≫= fun x => f x ≫= g) r) e n.
Proof.
  unfold mbind, M_bind. rewrite !exec_prog_bind.
  destruct (exec (m r) e n) as [[[c r']| | |] t]; cbn; try done.
  rewrite exec_prog_bind.
  destruct (exec (f c r') e (length t + n)) as [[[a r'']| | |] t']; cbn; try done.
  replace (length (t ++ t') + n)%nat with (length t' + (length t + n))%nat
    by (rewrite length_app; lia).
  by rewrite <- app_assoc.
Qed.

Lemma exec_mret_bind (a : A) :
  exec ((mret a ≫= g) r) e n = exec (g a r) e n.
Proof. done. Qed.

Lemma exec_raise_bind (x : pyexc) :
  exec ((raise x ≫= g) r) e n = (Raised x, []).
Proof. done. Qed.

Lemma exec_fail_bind : exec ((fail_json ≫= g) r) e n = (Failed r, []).
Proof. done. Qed.

Lemma exec_exit_bind : exec ((exit_json ≫= g) r) e n = (Exited r, []).
Proof. done. Qed.

Lemma exec_lift_res_bind (x : res A) :
  exec ((lift_res x ≫= g) r) e n =
  match x with Ok a => exec (g a r) e n | Err x => (Raised x, []) end.
Proof. by destruct x. Qed.

End Exec.

Section ExecUnit.

Context {B : Type}.
Variables (r : results) (e : env) (n : nat).

Lemma exec_modify_bind (f : results -> results) (g : unit -> M B) :
  exec ((modify f ≫= g) r) e n = exec (g tt (f r)) e n.
Proof. done. Qed.

Lemma exec_when_bind (c : bool) (body : M unit) (g : unit -> M B) :
  exec ((when c body ≫= g) r) e n =
  if c then exec ((body ≫= g) r) e n else exec (g tt r) e n.
Proof. by destruct c. Qed.

Lemma exec_run_bind (cmd : string) (g : response -> M B) :
  exec ((run_command cmd ≫= g) r) e n =
  (fst (exec (g (e n cmd) r) e (S n)),
   (cmd, e n cmd) :: snd (exec (g (e n cmd) r) e (S n))).
Proof.
  unfold mbind, M_bind, run_command. cbn.
  by destruct (exec (g (e n cmd) r) e (S n)).
Qed.

Lemma exec_lookup_state_bind (k : string) (d : pydict) (g : pyval -> M B) :
  exec ((lookup_state k d ≫= g) r) e n =
  match d !! k with Some v => exec (g v r) e n | None => (Raised KeyError, []) end.
Proof. unfold lookup_state, getitem. by destruct (d !! k). Qed.

Lemma exec_join_cmd_bind (cmd : list string) (dev : option string) (g : string -> M B) :
  exec ((join_cmd cmd dev ≫= g) r) e n =
  match dev with
  | Some dv => exec (g (join_sp (cmd ++ [dv])) r) e n
  | None => (Raised TypeError, [])
  end.
Proof. by destruct dev. Qed.

End ExecUnit.

Lemma exec_mret {A : Type} (a : A) (r : results) (e : env) (n : nat) :
  exec ((mret a : M A) r) e n = (Returned (a, r), []).
Proof. done. Qed.

(** The string literals of a goal, named: the steps of a run then work on
    small terms. *)
Ltac seal_strings :=
  repeat match goal with
         | |- context [String ?a ?b] => let x := fresh "lit" in set (x := String a b)
         end.

(** One step of a run: the first command of the sequence is run, a test of
    the sequence is decided. *)
Ltac exec_step :=
  first
    [ rewrite exec_bind_assoc
    | rewrite exec_mret_bind
    | rewrite exec_modify_bind
    | rewrite exec_fail_bind
    | rewrite exec_exit_bind
    | rewrite exec_raise_bind
    | rewrite exec_lookup_state_bind
    | rewrite exec_join_cmd_bind
    | rewrite exec_lift_res_bind
    | rewrite exec_mret
    | rewrite exec_when_bind; cbn [andb orb negb];
      try match goal with
          | |- context [if ?c then exec _ _ _ else exec _ _ _] => destruct c eqn:?
          end
    | rewrite exec_run_bind; cbv beta;
      match goal with
      | E : env |- context [?F ?n ?c] =>
          constr_eq F E; destruct (E n c) as [[? ?] ?] eqn:?
      end
    | match goal with
      | |- context [exec (((if ?c then _ else _) ≫= _) _) _ _] => destruct c eqn:?
      | |- context [match ?x with Some _ => exec _ _ _ | None => _ end] =>
          destruct x eqn:?
      | |- context [match ?x with Ok _ => exec _ _ _ | Err _ => _ end] =>
          destruct x eqn:?
      end ];
  cbv beta iota.

Ltac exec_run := repeat (exec_step; try done).

(** A run of [get_auth_details] followed by [f], when the status command
    succeeds and its output parses. *)
Lemma exec_get_auth_details_ok {A : Type} (dev : option string) (f : pydict -> M A)
    (r : results) (e : env) (n : nat) (d : pydict) :
  status_ok e n dev d ->
  exec ((get_auth_details dev ≫= f) r) e n =
  (fst (exec (f d r) e (S n)), status_query e n dev :: snd (exec (f d r) e (S n))).
Proof.
  intros (out & err & He & Hp). unfold get_auth_details, status_query.
  rewrite exec_bind_assoc, exec_run_bind, He. cbv beta iota.
  rewrite exec_bind_assoc, exec_when_bind. cbn [nonzero Z.eqb negb].
  by rewrite exec_lift_res_bind, Hp.
Qed.

(** ** Return codes of the tool *)

Ltac finish_report :=
  simpl; intros [= -> -> ->] ?;
  match goal with
  | Hrc : ?rc <> 0, H : nonzero ?rc = false |- _ =>
      exfalso; apply Hrc; unfold nonzero in H;
      apply negb_false_iff, Z.eqb_eq in H; exact H
  | H : (?rc =? 5) = true |- _ => exists EmptyString; rewrite H; reflexivity
  | H : (?rc =? 5) = false |- _ => eexists; rewrite H; reflexivity
  end.

Lemma unlock_reports (module : params) (r : results) (e : env) (n : nat)
    (rc : Z) (out err : string) :
  tool_response unlock (snd (exec (auth_unlock module r) e n)) = Some (rc, out, err) ->
  rc <> 0 ->
  exists cmd,
    fst (exec (auth_unlock module r) e n) =
    Failed (with_rc rc (with_stderr err
              (with_msg (if rc =? 5 then wrong_secret_msg unlock else fail_msg_of cmd) r))).
Proof.
  unfold auth_unlock, get_auth_details, run_and_report, tool_response,
    wrong_secret_msg.
  cbv zeta. cbn [action_is_check]. seal_strings.
  exec_run; finish_report.
Qed.

Lemma delete_reports (module : params) (r : results) (e : env) (n : nat)
    (rc : Z) (out err : string) :
  tool_response delete (snd (exec (auth_delete module r) e n)) = Some (rc, out, err) ->
  rc <> 0 ->
  exists cmd,
    fst (exec (auth_delete module r) e n) =
    Failed (with_rc rc (with_stderr err
              (with_msg (if rc =? 5 then wrong_secret_msg delete else fail_msg_of cmd) r))).
Proof.
  unfold auth_delete, get_auth_details, run_and_report, tool_response,
    wrong_secret_msg.
  cbv zeta. cbn [action_is_check]. seal_strings.
  exec_run; finish_report.
Qed.

Lemma check_reports (module : params) (r : results) (e : env) (n : nat)
    (rc : Z) (out err : string) :
  tool_response check (snd (exec (auth_check module r) e n)) = Some (rc, out, err) ->
  rc <> 0 ->
  exists cmd,
    fst (exec (auth_check module r) e n) =
    Failed (with_rc rc (with_stderr err
              (with_msg (if rc =? 5 then wrong_secret_msg check else fail_msg_of cmd) r))).
Proof.
  unfold auth_check, run_and_report, tool_response, wrong_secret_msg.
  cbv zeta. cbn [action_is_check]. seal_strings.
  exec_run; finish_report.
Qed.

(** C2: in a run of the handler of unlock, delete or check in which the
    command of the action was run and returned a return code other than 0,
    the handler ends with [fail_json], never with success: with the
    wrong-secret message of the action for the return code 5, with the
    message of the failed command otherwise; in both cases [results] holds
    the return code and the standard error of the command. *)
Theorem nonzero_exit_is_failure (a : action_t) (module : params) (r : results)
    (e : env) (n : nat) (rc : Z) (out err : string) :
  a = unlock \/ a = delete \/ a = check ->
  tool_response a (snd (exec (handler a module r) e n)) = Some (rc, out, err) ->
  rc <> 0 ->
  exists cmd,
    fst (exec (handler a module r) e n) =
    Failed (with_rc rc (with_stderr err
              (with_msg (if rc =? 5 then wrong_secret_msg a else fail_msg_of cmd) r))).
Proof.
  intros [->|[->| ->]]; cbn [handler].
  - apply unlock_reports.
  - apply delete_reports.
  - apply check_reports.
Qed.

Lemma nonzero_exit_is_failure_witness :
  exists cmd,
    fst (exec (handler delete
                 (mkParams delete (Some pwd) (Some "initpwd") (Some "secret") None None
                    (Some "testlv") false false)
                 results0)
           (Examples.answering Examples.locked_status 1 (5, "", "3020-0386"))
           0%nat) =
    Failed (with_rc 5 (with_stderr "3020-0386"
              (with_msg (if 5 =? 5 then wrong_secret_msg delete else fail_msg_of cmd)
                 results0))).
Proof.
  apply (nonzero_exit_is_failure delete _ _ _ _ 5 "" "3020-0386").
  - right. by left.
  - reflexivity.
  - done.
Defined.

(** ** Short circuits *)

Lemma auth_init_initialized (module : params) (r : results) (e : env) (n : nat)
    (d : pydict) :
  status_ok e n (device module) d ->
  d !! "initialized" = Some (PStr "yes") ->
  exec (auth_init module r) e n =
  (Exited (with_msg "No need to initialize, the LV is already initialized." r),
   [status_query e n (device module)]).
Proof.
  intros Hs Hd. unfold auth_init. cbv zeta.
  rewrite (exec_get_auth_details_ok _ _ _ _ _ _ Hs).
  rewrite exec_lookup_state_bind, Hd, exec_when_bind. cbn [pyval_eqb String.eqb Ascii.eqb Bool.eqb].
  by rewrite exec_bind_assoc, exec_modify_bind, exec_exit_bind.
Qed.

Lemma auth_unlock_unlocked (module : params) (r : results) (e : env) (n : nat)
    (d : pydict) :
  status_ok e n (device module) d ->
  d !! "locked" = Some (PStr "no") ->
  exec (auth_unlock module r) e n =
  (Exited (with_msg "The provided device is already unlocked." r),
   [status_query e n (device module)]).
Proof.
  intros Hs Hd. unfold auth_unlock. cbv zeta.
  rewrite (exec_get_auth_details_ok _ _ _ _ _ _ Hs).
  rewrite exec_lookup_state_bind, Hd, exec_when_bind. cbn [pyval_eqb String.eqb Ascii.eqb Bool.eqb].
  by rewrite exec_bind_assoc, exec_modify_bind, exec_exit_bind.
Qed.

Lemma exec_mbind {A B : Type} (m : M A) (f : A -> M B) (r : results) (e : env) (n : nat) :
  exec ((m ≫= f) r) e n =
  exec_then (exec (m r) e n) (fun ar k => exec (f (fst ar) (snd ar)) e (k + n)%nat).
Proof. apply exec_prog_bind. Qed.

(** The start of [main] up to the call of the handler. *)
Lemma exec_main (module : params) (e : env) (d0 : pydict) :
  status_ok e 0 (device module) d0 ->
  run (main module) e =
  let x := exec_then (exec (handler (action module) module results0) e 1)
             (fun ar k =>
                exec ((modify (with_msg (fst ar));;
                       when (negb (action_is_check (action module)))
                         (modify (with_changed true));;
                       r ← get_results;
                       modify (with_msg (res_msg r +:+
                         (". Action(" +:+ action_str (action module) +:+
                          ") completed successfully.")));;
                       exit_json) (snd ar)) e (k + 1)%nat) in
  (fst x, status_query e 0 (device module) :: snd x).
Proof.
  intros Hs. unfold run, main. cbv zeta.
  rewrite (exec_get_auth_details_ok _ _ _ _ _ _ Hs).
  rewrite exec_when_bind. cbn [lv_exists_object_truthy negb].
  rewrite exec_mbind. by destruct (action module).
Qed.

(** C9: in a run of [main] from the initial [results] in which the two
    status commands (of [main] and of the handler) succeed, the action
    initialize on a state with [initialized] "yes", and the action unlock on
    a state with [locked] "no", end the module with [exit_json]: the run
    holds the two status commands and no command of the action, [changed] is
    still false, the return code is 0 and the message says that nothing
    was to do. *)
Theorem short_circuit_noop (module : params) (e : env) (d0 d : pydict) :
  status_ok e 0 (device module) d0 ->
  status_ok e 1 (device module) d ->
  let queries := [status_query e 0 (device module); status_query e 1 (device module)] in
  (action module = initialize -> d !! "initialized" = Some (PStr "yes") ->
   exists r, run (main module) e = (Exited r, queries) /\
             res_changed r = false /\ res_rc r = 0 /\
             res_msg r = "No need to initialize, the LV is already initialized.") /\
  (action module = unlock -> d !! "locked" = Some (PStr "no") ->
   exists r, run (main module) e = (Exited r, queries) /\
             res_changed r = false /\ res_rc r = 0 /\
             res_msg r = "The provided device is already unlocked.").
Proof.
  intros H0 H1 queries. split; intros Ha Hd; eexists;
    rewrite (exec_main _ _ _ H0), Ha; cbn [handler].
  - rewrite (auth_init_initialized _ _ _ _ _ H1 Hd). by cbn.
  - rewrite (auth_unlock_unlocked _ _ _ _ _ H1 Hd). by cbn.
Qed.

Lemma short_circuit_noop_witness :
  exists r,
    run (main (mkParams initialize None (Some "initpwd") (Some "secret") None None
                 (Some "testlv") false false))
      (Examples.always Examples.locked_status) =
    (Exited r,
     [status_query (Examples.always Examples.locked_status) 0 (Some "testlv");
      status_query (Examples.always Examples.locked_status) 1 (Some "testlv")]) /\
    res_changed r = false /\ res_rc r = 0 /\
    res_msg r = "No need to initialize, the LV is already initialized.".
Proof.
  refine (proj1 (short_circuit_noop
                   (mkParams initialize None (Some "initpwd") (Some "secret") None None
                      (Some "testlv") false false)
                   (Examples.always Examples.locked_status)
                   Examples.locked_state Examples.locked_state _ _) _ _).
  - by exists Examples.locked_status, "".
  - by exists Examples.locked_status, "".
  - done.
  - done.
Defined.

(** ** The automatic key protection of unlock *)

Ltac absurd_tests :=
  exfalso;
  repeat match goal with
         | H : context [bool_decide ?P] |- _ => destruct (bool_decide P)
         | H : context [truthy_str ?x] |- _ => destruct (truthy_str x)
         | H : context [truthy_int ?x] |- _ => destruct (truthy_int x)
         | H : context [is_type ?x ?t] |- _ => destruct (is_type x t)
         end;
  simpl in *; congruence.

(** C10, as corrected: with [auto_key_protection] set, every run of
    [auth_unlock] holds the status command alone, so no command with the flag
    -A is ever run.  When the status command succeeds and the state is
    locked (the value of [locked] is not "no"), the handler ends with
    [fail_json] before the command of the action: with the message that asks
    for [auth_type] when it is absent, with the message that refuses
    [auth_type] together with the automatic key protection otherwise. *)
Theorem auto_key_protection_unlock (module : params) (r : results) (e : env) (n : nat) :
  auto_key_protection module = true ->
  snd (exec (auth_unlock module r) e n) = [status_query e n (device module)] /\
  forall d v,
    status_ok e n (device module) d ->
    d !! "locked" = Some v -> pyval_eqb v "no" = false ->
    fst (exec (auth_unlock module r) e n) =
    Failed (with_msg
              (if bool_decide (is_Some (auth_type module))
               then "Can not use auth_detail or auth_type when auth_key_protection is set."
               else "You need to provide the auth_type that you want to use.") r).
Proof.
  intros Ha. split.
  - unfold auth_unlock, get_auth_details, status_query. cbv zeta. rewrite Ha.
    seal_strings. exec_run; absurd_tests.
  - intros d v Hs Hd Hv. unfold auth_unlock. cbv zeta.
    rewrite (exec_get_auth_details_ok _ _ _ _ _ _ Hs).
    rewrite exec_lookup_state_bind, Hd, exec_when_bind, Hv, Ha.
    seal_strings. exec_run; try absurd_tests.
    all: by destruct (bool_decide _).
Qed.

Lemma auto_key_protection_unlock_witness :
  let module := mkParams unlock (Some pks) None None None None (Some "testlv") true false in
  let e := Examples.always Examples.locked_status in
  snd (exec (auth_unlock module results0) e 0) = [status_query e 0 (Some "testlv")] /\
  fst (exec (auth_unlock module results0) e 0) =
  Failed (with_msg
            "Can not use auth_detail or auth_type when auth_key_protection is set."
            results0).
Proof.
  intros module e.
  destruct (auto_key_protection_unlock module results0 e 0 eq_refl) as [H1 H2].
  split; [exact H1|].
  apply (H2 Examples.locked_state (PStr "yes")).
  - by exists Examples.locked_status, "".
  - done.
  - done.
Defined.

(** C10, the claim as stated fails: with the automatic key protection set
    and a resource that is not locked, unlock ends with [exit_json] and the
    message that the device is already unlocked. *)
Lemma auto_key_protection_unlocked :
  let module := mkParams unlock None None None None None (Some "testlv") true false in
  let e := Examples.always Examples.unlocked_status in
  parse (Some "testlv") Examples.unlocked_status = Ok Examples.unlocked_state /\
  exec (auth_unlock module results0) e 0 =
  (Exited (with_msg "The provided device is already unlocked." results0),
   [status_query e 0 (Some "testlv")]).
Proof. split; reflexivity. Qed.

(** ** Validation against the state *)

(** C1, as corrected: on a state with [initialized] "no", [auth_add] ends
    with [fail_json] and its own message before any command of the action;
    [auth_unlock] ends with [exit_json] and the message that the device is
    already unlocked, since such a state is never locked; [auth_delete] ends
    with [fail_json] and a validation message when the state records no
    index and no name.  ([auth_check] does not read the state.) *)
Theorem uninitialized_state (module : params) (r : results) (e : env) (n : nat)
    (d : pydict) :
  status_ok e n (device module) d ->
  d !! "initialized" = Some (PStr "no") ->
  let q := status_query e n (device module) in
  exec (auth_add module r) e n =
    (Failed (with_msg
       "The provided LV is uninitialized, you can not add authentication methods." r),
     [q]) /\
  exec (auth_unlock module r) e n =
    (Exited (with_msg "The provided device is already unlocked." r), [q]) /\
  (d !! "index" = None -> d !! "auth_names" = None ->
   exists m, exec (auth_delete module r) e n = (Failed (with_msg m r), [q]) /\
     (m = "Please provide the authentication type of the method that you want to delete." \/
      m = "The provided auth_index does not exist for this device's methods." \/
      m = "The provided auth_name does not exist for this device's methods." \/
      m = "You need to either provide the name or index of the method that you want to delete.")).
Proof.
  intros Hs Hd q. split; [|split].
  - unfold auth_add. cbv zeta.
    rewrite (exec_get_auth_details_ok _ _ _ _ _ _ Hs).
    rewrite exec_lookup_state_bind, Hd, exec_when_bind.
    cbn [pyval_eqb String.eqb Ascii.eqb Bool.eqb].
    by rewrite exec_bind_assoc, exec_modify_bind, exec_fail_bind.
  - apply (auth_unlock_unlocked _ _ _ _ d); [done|].
    destruct Hs as (out & err & _ & Hp).
    by eapply parse_uninitialized_unlocked.
  - intros Hi Hn. unfold auth_delete. cbv zeta.
    rewrite (exec_get_auth_details_ok _ _ _ _ _ _ Hs).
    unfold has_key. rewrite Hi, Hn. cbn [negb orb].
    destruct (truthy_int (auth_index module)) eqn:Hti,
             (truthy_str (auth_name module)) eqn:Hts;
      cbn [negb andb]; seal_strings; exec_run;
      eexists; (split; [reflexivity|]); tauto.
Qed.

Lemma uninitialized_state_witness :
  let module := mkParams add (Some pks) (Some "pks1") None None None
                  (Some "testlv") false false in
  let e := Examples.always Examples.uninitialized_status in
  exec (auth_add module results0) e 0 =
  (Failed (with_msg
     "The provided LV is uninitialized, you can not add authentication methods."
     results0),
   [status_query e 0 (Some "testlv")]).
Proof.
  intros module e.
  refine (proj1 (uninitialized_state module results0 e 0
                   Examples.uninitialized_state _ _)).
  - by exists Examples.uninitialized_status, "".
  - done.
Defined.

(** C1, the claim as stated fails: on an uninitialized resource unlock ends
    with [exit_json], not with a failure, and check runs its command. *)
Lemma uninitialized_unlock_and_check :
  let e := Examples.always Examples.uninitialized_status in
  let module a := mkParams a (Some pks) None None None None (Some "testlv") false false in
  parse (Some "testlv") Examples.uninitialized_status = Ok Examples.uninitialized_state /\
  Examples.uninitialized_state !! "initialized" = Some (PStr "no") /\
  exec (handler unlock (module unlock) results0) e 0 =
    (Exited (with_msg "The provided device is already unlocked." results0),
     [status_query e 0 (Some "testlv")]) /\
  exec (handler check (module check) results0) e 0 =
    (Returned
       ("Successfully checked the authentication method, command: /usr/sbin/hdcryptmgr authcheck -t pks testlv",
        results0),
     [("/usr/sbin/hdcryptmgr authcheck -t pks testlv",
       (0, Examples.uninitialized_status, ""))]).
Proof. repeat split; reflexivity. Qed.

(** C3, as corrected: [auth_delete], given an index other than 0 that is not
    among the indices of the state, or a name other than the empty string
    that is not among its names, ends with [fail_json] before any command of
    the action: with the message that the index or the name does not exist
    when [auth_type] is given, with the message that asks for it otherwise.
    ([auth_check] does not look the index or the name up.) *)
Theorem delete_unknown_reference (module : params) (r : results) (e : env) (n : nat)
    (d : pydict) :
  status_ok e n (device module) d ->
  (truthy_int (auth_index module) = true /\
   member_of "index" (fmt_int (auth_index module)) d = false) \/
  (truthy_str (auth_name module) = true /\
   member_of "auth_names" (fmt (auth_name module)) d = false) ->
  exists m,
    exec (auth_delete module r) e n =
    (Failed (with_msg m r), [status_query e n (device module)]) /\
    ((auth_type module = None /\
      m = "Please provide the authentication type of the method that you want to delete.") \/
     (is_Some (auth_type module) /\
      (m = "The provided auth_index does not exist for this device's methods." \/
       m = "The provided auth_name does not exist for this device's methods."))).
Proof.
  intros Hs H. unfold auth_delete. cbv zeta.
  rewrite (exec_get_auth_details_ok _ _ _ _ _ _ Hs).
  destruct (auth_type module) as [t|] eqn:Ht.
  - assert (is_Some (Some t)) as HS by by eexists.
    rewrite (bool_decide_eq_true_2 _ HS).
    destruct H as [[H1 H2]|[H1 H2]]; rewrite H1, H2; cbn [negb andb];
      rewrite orb_true_r; seal_strings; exec_run;
      eexists; (split; [reflexivity|]); right; (split; [done|]); tauto.
  - seal_strings. exec_run. eexists. split; [reflexivity|]. by left.
Qed.

Lemma delete_unknown_reference_witness :
  let module := mkParams delete (Some pwd) (Some "x") (Some "secret") None None
                  (Some "testlv") false false in
  let e := Examples.always Examples.locked_status in
  exists m,
    exec (auth_delete module results0) e 0 =
    (Failed (with_msg m results0), [status_query e 0 (Some "testlv")]) /\
    ((auth_type module = None /\
      m = "Please provide the authentication type of the method that you want to delete.") \/
     (is_Some (auth_type module) /\
      (m = "The provided auth_index does not exist for this device's methods." \/
       m = "The provided auth_name does not exist for this device's methods."))).
Proof.
  intros module e.
  apply (delete_unknown_reference module results0 e 0 Examples.locked_state).
  - by exists Examples.locked_status, "".
  - right. done.
Defined.

(** C3, the claim as stated fails: check with an index that no slot of the
    state has runs its command. *)
Lemma check_unknown_index :
  let e := Examples.always Examples.locked_status in
  let module := mkParams check (Some pks) None None None (Some 7) (Some "testlv")
                  false false in
  parse (Some "testlv") Examples.locked_status = Ok Examples.locked_state /\
  member_of "index" "7" Examples.locked_state = false /\
  exec (auth_check module results0) e 0 =
    (Returned
       ("Successfully checked the authentication method, command: /usr/sbin/hdcryptmgr authcheck -t pks -i 7 testlv",
        results0),
     [("/usr/sbin/hdcryptmgr authcheck -t pks -i 7 testlv",
       (0, Examples.locked_status, ""))]).
Proof. repeat split; reflexivity. Qed.

(** C4, as corrected: with neither a name nor an index, [auth_delete] ends
    with [fail_json] before any command of the action, and so does
    [auth_check] when [auth_type] is absent or is keyfile (and the device is
    given).  For the types pwd and pks [auth_check] asks for neither.  The
    hypotheses are the tests [not name] and [not index] of the code, which
    an absent name and an absent index satisfy. *)
Theorem missing_name_and_index (module : params) (r : results) (e : env) (n : nat) :
  truthy_str (auth_name module) = false ->
  truthy_int (auth_index module) = false ->
  (forall d, status_ok e n (device module) d ->
     exec (auth_delete module r) e n =
     (Failed (with_msg
        (if bool_decide (is_Some (auth_type module))
         then "You need to either provide the name or index of the method that you want to delete."
         else "Please provide the authentication type of the method that you want to delete.")
        r),
      [status_query e n (device module)])) /\
  (auth_type module = None \/
   (auth_type module = Some keyfile /\ is_Some (device module)) ->
   exec (auth_check module r) e n =
   (Failed (with_msg
      (if bool_decide (is_Some (auth_type module))
       then "You need to provide either index or name in case of keyfile auth_type."
       else "You need to provide the authentication type for action=check.")
      r),
    [])).
Proof.
  intros Hn Hi. split.
  - intros d Hs. unfold auth_delete. cbv zeta.
    rewrite (exec_get_auth_details_ok _ _ _ _ _ _ Hs).
    rewrite Hn, Hi. cbn [negb andb].
    destruct (bool_decide (is_Some (auth_type module))); seal_strings; exec_run.
  - intros [Ht|[Ht [dev Hdev]]]; unfold auth_check; cbv zeta;
      rewrite Ht, ?Hdev, Hn, Hi; cbn [negb andb is_type auth_type_eqb].
    + rewrite bool_decide_eq_false_2 by (by intros [? ?]). seal_strings. exec_run.
    + rewrite bool_decide_eq_true_2 by (by eexists). seal_strings. exec_run.
Qed.

Lemma missing_name_and_index_witness :
  let module := mkParams check (Some keyfile) None None (Some "/key1") None
                  (Some "testlv") false false in
  exec (auth_check module results0) (Examples.always Examples.locked_status) 0 =
  (Failed (with_msg
     "You need to provide either index or name in case of keyfile auth_type."
     results0),
   []).
Proof.
  intros module.
  refine (proj2 (missing_name_and_index module results0
                   (Examples.always Examples.locked_status) 0 eq_refl eq_refl) _).
  right. split; [done | by eexists].
Defined.

(** C4, the claim as stated fails: check of the type pks with neither a
    name nor an index runs its command. *)
Lemma check_without_name_and_index :
  let module := mkParams check (Some pks) None None None None (Some "testlv")
                  false false in
  exec (auth_check module results0) (Examples.always Examples.locked_status) 0 =
  (Returned
     ("Successfully checked the authentication method, command: /usr/sbin/hdcryptmgr authcheck -t pks testlv",
      results0),
   [("/usr/sbin/hdcryptmgr authcheck -t pks testlv",
     (0, Examples.locked_status, ""))]).
Proof. reflexivity. Qed.

(** ** Further properties of the password strength predicate *)

Lemma lookahead_first_line (C : ascii -> bool) (s : string) :
  C LF = false -> lookahead C s = has_class C (first_line s).
Proof.
  intros HC. induction s as [|c r IH]; simpl; [done|].
  destruct (Ascii.eqb c LF) eqn:Hc; simpl.
  - apply Ascii.eqb_eq in Hc. subst c. by rewrite HC.
  - by rewrite IH.
Qed.

Lemma pattern_at_first_line (s : string) :
  pattern_at s = all_classes (first_line s).
Proof.
  unfold pattern_at, all_classes. by rewrite !lookahead_first_line.
Qed.

Lemma all_classes_cons (c : ascii) (s : string) :
  all_classes s = true -> all_classes (String c s) = true.
Proof.
  unfold all_classes. simpl. intros H.
  repeat (apply andb_true_iff in H as [H ?]).
  rewrite H, H0, H1, H2. by rewrite !orb_true_r.
Qed.

Lemma re_search_some_line (s : string) :
  re_search s = some_line all_classes s.
Proof.
  unfold some_line. induction s as [|c r IH].
  - done.
  - change (re_search (String c r)) with (pattern_at (String c r) || re_search r).
    rewrite pattern_at_first_line, IH. simpl.
    destruct (Ascii.eqb c LF); [done|].
    destruct (all_classes (first_line r)) eqn:Hr; [|done].
    by rewrite (all_classes_cons _ _ Hr).
Qed.

(** X1: a password is strong exactly when it has at least 12 characters and
    one of its lines (the parts between line feeds) holds an uppercase
    letter, a lowercase letter, a digit and a punctuation character. *)
Theorem password_strength_exact (password : string) :
  check_password_strength password =
  (12 <=? len password) && some_line all_classes password.
Proof.
  unfold check_password_strength. rewrite re_search_some_line.
  rewrite (Z.leb_antisym (len password) 12).
  destruct (len password <? 12); simpl; [done|].
  by destruct (some_line all_classes password).
Qed.

(** X2: a password that [check_password_strength] accepts has at least 12
    characters and holds a character of each of the four classes. *)
Theorem strong_password_sound (password : string) :
  check_password_strength password = true -> spec_strong password = true.
Proof.
  unfold check_password_strength, spec_strong.
  rewrite (Z.leb_antisym (len password) 12).
  destruct (len password <? 12); simpl; [done|].
  destruct (re_search password) eqn:Hs; simpl; [|done].
  intros _. by apply re_search_has_classes.
Qed.

Lemma strong_password_sound_witness : spec_strong "Correct-Horse7" = true.
Proof. apply strong_password_sound. reflexivity. Defined.

(** ** Further properties of the parser *)

Lemma flag_insert_list (k k' : string) (l : list string) (d : pydict) :
  flag k d = None -> flag k' (<[k := PList l]> d) = flag k' d.
Proof.
  unfold flag. intros H. rewrite lookup_insert. case_decide; [subst|done].
  done.
Qed.

Lemma flag_setdefault (k k' : string) (d : pydict) :
  flag k' (setdefault_nil k d) = flag k' d.
Proof.
  unfold flag. rewrite setdefault_nil_lookup.
  case_bool_decide; simpl; [subst|done].
  unfold has_key. by destruct (d !! k').
Qed.

Lemma flag_append (k k' x : string) (d d' : pydict) :
  dict_append k x d = Ok d' -> flag k' d' = flag k' d.
Proof.
  intros (l & Hl & ->)%dict_append_Ok. apply flag_insert_list.
  unfold flag. by rewrite Hl.
Qed.

Lemma flag_append_if (c : bool) (k k' x : string) (d d' : pydict) :
  (if c then dict_append k x d else Ok d) = Ok d' -> flag k' d' = flag k' d.
Proof. destruct c; [apply flag_append | by intros [= <-]]. Qed.

(** A turn of the loop keeps the values of [initialized] and [locked]
    consistent. *)
Lemma parse_line_flags (dev : option string) (line : list string)
    (d d' : pydict) (fl : flow) :
  flags_consistent d ->
  parse_line dev line d = Ok (fl, d') -> flags_consistent d'.
Proof.
  intros Hd. unfold parse_line.
  destruct (line !! 0%nat) as [line0|]; [|done].
  case_bool_decide.
  - destruct (line !! 1%nat) as [line1|]; [|done].
    destruct (String.eqb line1 "uninitialized"); simpl;
      [|destruct (String.eqb line1 "locked")]; intros [= <- <-];
      unfold flags_consistent, flag; simplify_map_eq; tauto.
  - destruct (contains_char "#" line0); [|by intros [= <- <-]].
    destruct (line !! 1%nat) as [line1|]; [|done].
    set (auth_name := if (2 <? length line)%nat then _ else _).
    destruct (if truthy_str auth_name then _ else _) as [d2|] eqn:H2; [|done].
    simpl.
    destruct (dict_append "index" _ _) as [d4|] eqn:H4; [|done]. simpl.
    destruct (if truthy_str auth_name then dict_append "auth_names" _ _ else _)
      as [d5|] eqn:H5; [|done].
    simpl. intros [= <- <-].
    unfold flags_consistent in *.
    by rewrite !(flag_append_if _ _ _ _ _ _ H5), !(flag_append _ _ _ _ _ H4),
      !flag_setdefault, !(flag_append_if _ _ _ _ _ _ H2), !flag_setdefault.
Qed.

(** X3: in every state that [parse] returns, [initialized] and [locked] are
    both unset, or [initialized] is "no" and [locked] is "no", or
    [initialized] is "yes" and [locked] is "yes" or "no": a resource that is
    not initialized is never locked. *)
Theorem parse_flags (dev : option string) (stdout : string) (d : pydict) :
  parse dev stdout = Ok d -> flags_consistent d.
Proof.
  unfold parse. generalize (tail (splitlines stdout)). intros ls.
  assert (flags_consistent (∅ : pydict)) as H0 by (by left).
  revert H0. generalize (∅ : pydict). induction ls as [|l ls IH]; intros d0 H0; simpl.
  - by intros [= <-].
  - destruct (parse_line dev (split l) d0) as [[[] d1]|] eqn:Hl; [| |done].
    + apply IH. by eapply parse_line_flags.
    + intros [= <-]. by eapply parse_line_flags.
Qed.

Lemma parse_flags_witness : flags_consistent Examples.locked_state.
Proof.
  apply (parse_flags (Some "testlv") Examples.locked_status). reflexivity.
Defined.

Lemma splitlines_from_nonempty (a cur : string) :
  ends_with_LF a = true -> splitlines_from a cur false <> [].
Proof.
  revert cur. induction a as [|c a IH]; intros cur H; [done|].
  cbn [splitlines_from]. rewrite andb_false_r.
  destruct (is_linebreak c) eqn:Hc; [done|].
  destruct a as [|c' a'].
  - simpl in H. apply Ascii.eqb_eq in H. by subst c.
  - by apply IH.
Qed.

(** X4: the loop reads nothing after the summary line of an uninitialized
    resource: when a text ended by a line feed parses to a state with
    [initialized] "no", the text followed by any other text parses to the
    same state. *)
Theorem parse_stops_when_uninitialized (dev : option string) (stdout more : string)
    (d : pydict) :
  ends_with_LF stdout = true ->
  parse dev stdout = Ok d ->
  d !! "initialized" = Some (PStr "no") ->
  parse dev (stdout +:+ more) = Ok d.
Proof.
  intros HLF Hp Hd. unfold parse, splitlines in *.
  rewrite splitlines_from_app by done.
  pose proof (splitlines_from_nonempty stdout "" HLF) as Hne.
  destruct (splitlines_from stdout "" false) as [|header content]; [done|].
  simpl in Hp |- *.
  assert (not_uninitialized (∅ : pydict)) as He
    by (unfold not_uninitialized; by rewrite lookup_empty).
  rewrite (parse_lines_app _ _ _ _ _ He Hp).
  by rewrite bool_decide_eq_true_2.
Qed.

Lemma parse_stops_when_uninitialized_witness :
  parse (Some "testlv")
    (Examples.uninitialized_status +:+ Examples.line "#0 Passphrase initpwd") =
  Ok Examples.uninitialized_state.
Proof. by apply parse_stops_when_uninitialized. Defined.

Lemma entries_setdefault (k0 k : string) (d : pydict) :
  entries k (setdefault_nil k0 d) = entries k d.
Proof.
  unfold entries. rewrite setdefault_nil_lookup.
  case_bool_decide; simpl; [subst|done].
  unfold has_key. by destruct (d !! k).
Qed.

Lemma entries_append (k0 x k : string) (d d' : pydict) :
  dict_append k0 x d = Ok d' ->
  entries k d' = entries k d ++ (if bool_decide (k0 = k) then [x] else []).
Proof.
  intros (l & Hl & ->)%dict_append_Ok. unfold entries.
  rewrite lookup_insert. case_decide.
  - subst. rewrite Hl. by rewrite bool_decide_eq_true_2.
  - rewrite bool_decide_eq_false_2 by done. by rewrite app_nil_r.
Qed.

Lemma entries_append_if (c : bool) (k0 x k : string) (d d' : pydict) :
  (if c then dict_append k0 x d else Ok d) = Ok d' ->
  entries k d' = entries k d ++ (if c && bool_decide (k0 = k) then [x] else []).
Proof.
  destruct c; [apply entries_append|]. intros [= <-]. by rewrite app_nil_r.
Qed.

Lemma entries_insert_str (k0 s k : string) (d : pydict) :
  entries k (<[k0 := PStr s]> d) = if bool_decide (k0 = k) then [] else entries k d.
Proof.
  unfold entries. rewrite lookup_insert.
  case_decide; [by rewrite bool_decide_eq_true_2 | by rewrite bool_decide_eq_false_2].
Qed.

Lemma names_recorded_insert_str (k0 s : string) (d : pydict) :
  special k0 = true ->
  names_recorded d -> names_recorded (<[k0 := PStr s]> d).
Proof.
  intros H0 Hd k x Hk. rewrite !entries_insert_str.
  rewrite (bool_decide_eq_false_2 (k0 = "auth_names")).
  - case_bool_decide; [by intros ?%elem_of_nil | by apply (Hd k)].
  - intros ->. done.
Qed.

Lemma parse_line_names (dev : option string) (line : list string)
    (d d' : pydict) (fl : flow) :
  names_recorded d ->
  parse_line dev line d = Ok (fl, d') -> names_recorded d'.
Proof.
  intros Hd. unfold parse_line.
  destruct (line !! 0%nat) as [line0|]; [|done].
  case_bool_decide.
  - destruct (line !! 1%nat) as [line1|]; [|done].
    destruct (String.eqb line1 "uninitialized"); simpl;
      [|destruct (String.eqb line1 "locked")]; intros [= <- <-];
      by repeat apply names_recorded_insert_str.
  - destruct (contains_char "#" line0); [|by intros [= <- <-]].
    destruct (line !! 1%nat) as [line1|]; [|done].
    set (auth_name := if (2 <? length line)%nat then _ else _).
    destruct (if truthy_str auth_name then _ else _) as [d2|] eqn:H2; [|done].
    simpl.
    destruct (dict_append "index" _ _) as [d4|] eqn:H4; [|done]. simpl.
    destruct (if truthy_str auth_name then dict_append "auth_names" _ _ else _)
      as [d5|] eqn:H5; [|done].
    simpl. intros [= <- <-]. intros k x Hk.
    rewrite !(entries_append_if _ _ _ _ _ _ H5), !(entries_append _ _ _ _ _ H4),
      !entries_setdefault, !(entries_append_if _ _ _ _ _ _ H2), !entries_setdefault.
    rewrite (bool_decide_eq_false_2 ("index" = k)) by done.
    rewrite (bool_decide_eq_false_2 ("index" = "auth_names")) by done.
    rewrite (bool_decide_eq_true_2 ("auth_names" = "auth_names")) by done.
    rewrite !app_nil_r, andb_true_r, !elem_of_app.
    intros [[Hx|Hx]|Hx].
    + left. left. by apply (Hd k).
    + destruct (truthy_str auth_name); simpl in *; [|by apply elem_of_nil in Hx].
      right. case_bool_decide; [|by apply elem_of_nil in Hx].
      apply list_elem_of_singleton in Hx. subst. by apply list_elem_of_singleton.
    + destruct (truthy_str auth_name); simpl in *; [|by apply elem_of_nil in Hx].
      right. case_bool_decide; [|by apply elem_of_nil in Hx].
      apply list_elem_of_singleton in Hx. subst. by apply list_elem_of_singleton.
Qed.

(** X5: in every state that [parse] returns, each name of a method bucket
    (of every key of the state but [index]) is also among [auth_names], the
    list that the handlers search for a name. *)
Theorem parse_names_recorded (dev : option string) (stdout : string) (d : pydict) :
  parse dev stdout = Ok d -> names_recorded d.
Proof.
  unfold parse. generalize (tail (splitlines stdout)). intros ls.
  assert (names_recorded (∅ : pydict)) as H0.
  { intros k x _. unfold entries. rewrite lookup_empty. by intros ?%elem_of_nil. }
  revert H0. generalize (∅ : pydict). induction ls as [|l ls IH]; intros d0 H0; simpl.
  - by intros [= <-].
  - destruct (parse_line dev (split l) d0) as [[[] d1]|] eqn:Hl; [| |done].
    + apply IH. by eapply parse_line_names.
    + intros [= <-]. by eapply parse_line_names.
Qed.

Lemma parse_names_recorded_witness : names_recorded Examples.locked_state.
Proof.
  apply (parse_names_recorded (Some "testlv") Examples.locked_status). reflexivity.
Defined.

(** ** Further runs of the handlers *)

Lemma exec_get_auth_details_failed {A : Type} (dev : option string) (f : pydict -> M A)
    (r : results) (e : env) (n : nat) (rc : Z) (out err : string) :
  e n (showlv_cmd dev) = (rc, out, err) -> rc <> 0 ->
  exec ((get_auth_details dev ≫= f) r) e n =
  (Failed (status_failed rc err r), [status_query e n dev]).
Proof.
  intros He Hrc. unfold get_auth_details, status_query, status_failed.
  rewrite exec_bind_assoc, exec_run_bind, He. cbv beta iota.
  rewrite exec_bind_assoc, exec_when_bind.
  assert (nonzero rc = true) as -> by (by apply negb_true_iff, Z.eqb_neq).
  repeat first [rewrite exec_bind_assoc | rewrite exec_modify_bind].
  by rewrite exec_fail_bind.
Qed.

(** X6: when the status command returns a return code other than 0, the
    handlers that ask for the status (initialize, add, delete, unlock) and
    [main] for every action end with [fail_json] right after it: the
    message says that the details could not be read, [results] holds the
    return code and the standard error, and no other command is run.  The
    return code 5 has no special meaning here. *)
Theorem status_failure (module : params) (r : results) (e : env) (n : nat)
    (rc : Z) (out err : string) :
  e n (showlv_cmd (device module)) = (rc, out, err) -> rc <> 0 ->
  (forall a, a <> check ->
     exec (handler a module r) e n =
     (Failed (status_failed rc err r), [status_query e n (device module)])) /\
  (n = 0%nat ->
   run (main module) e =
   (Failed (status_failed rc err results0), [status_query e 0 (device module)])).
Proof.
  intros He Hrc. split.
  - intros a Ha. destruct a; try done; cbn [handler];
      [unfold auth_init|unfold auth_unlock|unfold auth_add|unfold auth_delete];
      cbv zeta; by apply (exec_get_auth_details_failed _ _ _ _ _ _ out).
  - intros ->. unfold run, main. cbv zeta.
    by apply (exec_get_auth_details_failed _ _ _ _ _ _ out).
Qed.

Lemma status_failure_witness :
  let module := mkParams delete (Some pks) (Some "pks1") None None None
                  (Some "nolv") false false in
  let e := Examples.answering "" 0 (5, "", "3020-0125") in
  run (main module) e =
  (Failed (status_failed 5 "3020-0125" results0), [status_query e 0 (Some "nolv")]).
Proof.
  intros module e.
  by apply (proj2 (status_failure module results0 e 0 5 "" "3020-0125" eq_refl
                     ltac:(done))).
Defined.

(** X7: when the state read from the status text has no [initialized]
    entry (no summary line of the resource was met), [auth_init] and
    [auth_add] raise [KeyError] right after the status command; when it has
    no [locked] entry, so does [auth_unlock]. *)
Theorem missing_flag_raises (module : params) (r : results) (e : env) (n : nat)
    (d : pydict) :
  status_ok e n (device module) d ->
  (d !! "initialized" = None ->
   exec (auth_init module r) e n = (Raised KeyError, [status_query e n (device module)]) /\
   exec (auth_add module r) e n = (Raised KeyError, [status_query e n (device module)])) /\
  (d !! "locked" = None ->
   exec (auth_unlock module r) e n = (Raised KeyError, [status_query e n (device module)])).
Proof.
  intros Hs. split; [intros Hd; split | intros Hd];
    [unfold auth_init|unfold auth_add|unfold auth_unlock]; cbv zeta;
    rewrite (exec_get_auth_details_ok _ _ _ _ _ _ Hs);
    by rewrite exec_lookup_state_bind, Hd.
Qed.

Lemma missing_flag_raises_witness :
  let module := mkParams initialize None None (Some "secret") None None
                  (Some "testlv") false false in
  let e := Examples.always (Examples.line "LV NAME") in
  exec (auth_init module results0) e 0 =
  (Raised KeyError, [status_query e 0 (Some "testlv")]).
Proof.
  intros module e.
  refine (proj1 (proj1 (missing_flag_raises module results0 e 0 ∅ _) _)).
  - by exists (Examples.line "LV NAME"), "".
  - done.
Defined.

Lemma exec_check_strength_bind {B : Type} (password : option string) (g : bool -> M B)
    (r : results) (e : env) (n : nat) :
  exec ((check_strength password ≫= g) r) e n =
  match password with
  | Some p => exec (g (check_password_strength p) r) e n
  | None => (Raised TypeError, [])
  end.
Proof. by destruct password. Qed.

Ltac exec_run' :=
  repeat (first [rewrite exec_check_strength_bind; cbv beta iota | exec_step]; try done).

(** X8: with [auth_type] pwd and no password, the handlers of add, delete,
    unlock and check never run the command of the action and never return:
    whatever the environment answers, the run ends before it (with a
    validation failure, a no-op exit or an exception). *)
Theorem password_required (a : action_t) (module : params) (r : results)
    (e : env) (n : nat) :
  a <> initialize ->
  auth_type module = Some pwd -> password module = None ->
  tool_response a (snd (exec (handler a module r) e n)) = None /\
  forall y, fst (exec (handler a module r) e n) <> Returned y.
Proof.
  intros Ha Ht Hp. destruct a; try done; cbn [handler];
    [unfold auth_unlock|unfold auth_add|unfold auth_check|unfold auth_delete];
    unfold get_auth_details, run_and_report, tool_response;
    cbv zeta; cbn [action_is_check]; rewrite Ht, Hp;
    cbn [is_type auth_type_eqb password_missing truthy_str negb andb];
    seal_strings; exec_run'.
Qed.

Lemma password_required_witness :
  let module := mkParams check (Some pwd) (Some "initpwd") None None None
                  (Some "testlv") false false in
  tool_response check
    (snd (exec (handler check module results0)
            (Examples.always Examples.locked_status) 0)) = None.
Proof.
  intros module.
  by apply (password_required check module results0
              (Examples.always Examples.locked_status) 0).
Defined.

Lemma member_of_has_key (k x : string) (d : pydict) :
  member_of k x d = true -> has_key k d = true.
Proof. unfold member_of, has_key. by destruct (d !! k). Qed.

(** X9: the guards of [auth_add] on an initialized resource.  Each of them
    ends the handler with [fail_json] and its own message before any command
    of the action: no [auth_type]; the type keyfile without [auth_detail];
    a name that is already among [auth_names]; the type pks when the state
    already has a pks bucket. *)
Theorem add_guards (module : params) (r : results) (e : env) (n : nat)
    (d : pydict) (v : pyval) :
  status_ok e n (device module) d ->
  d !! "initialized" = Some v -> pyval_eqb v "no" = false ->
  let fails m :=
    exec (auth_add module r) e n =
    (Failed (with_msg m r), [status_query e n (device module)]) in
  (auth_type module = None ->
   fails "You need to specify the type of authentication method to use.") /\
  (auth_type module = Some keyfile -> truthy_str (auth_detail module) = false ->
   fails "You need to provide the key file's location in auth_detail, when auth_type is set to keyfile.") /\
  (is_Some (auth_type module) ->
   (auth_type module = Some keyfile -> truthy_str (auth_detail module) = true) ->
   truthy_str (auth_name module) = true ->
   member_of "auth_names" (fmt (auth_name module)) d = true ->
   fails "The provided authentication method's name is already present, kindly use a different one.") /\
  (auth_type module = Some pks ->
   (truthy_str (auth_name module) = true ->
    member_of "auth_names" (fmt (auth_name module)) d = false) ->
   has_key "pks" d = true ->
   fails "PKS authentication method already exists, can not add a new one.").
Proof.
  intros Hs Hd Hv fails. subst fails. cbv beta.
  assert (forall t, bool_decide (is_Some (Some t : option auth_type_t)) = true) as HS
    by (intros t; by apply bool_decide_eq_true_2).
  repeat split.
  - intros Ht. unfold auth_add. cbv zeta.
    rewrite (exec_get_auth_details_ok _ _ _ _ _ _ Hs).
    rewrite exec_lookup_state_bind, Hd, exec_when_bind, Hv, Ht.
    seal_strings. exec_run'.
  - intros Ht Hm. unfold auth_add. cbv zeta.
    rewrite (exec_get_auth_details_ok _ _ _ _ _ _ Hs).
    rewrite exec_lookup_state_bind, Hd, exec_when_bind, Hv, Ht, HS, Hm.
    cbn [negb andb is_type auth_type_eqb]. seal_strings. exec_run'.
  - intros [t Ht] Hk Hn Hmem. unfold auth_add. cbv zeta.
    rewrite (exec_get_auth_details_ok _ _ _ _ _ _ Hs).
    rewrite exec_lookup_state_bind, Hd, exec_when_bind, Hv, Ht, HS, Hn, Hmem.
    rewrite (member_of_has_key _ _ _ Hmem).
    destruct t; cbn [negb andb is_type auth_type_eqb]; rewrite ?andb_false_r;
      rewrite ?(Hk Ht); cbn [negb andb]; seal_strings; exec_run'.
  - intros Ht Hn Hp. unfold auth_add. cbv zeta.
    rewrite (exec_get_auth_details_ok _ _ _ _ _ _ Hs).
    rewrite exec_lookup_state_bind, Hd, exec_when_bind, Hv, Ht, HS, Hp.
    cbn [negb andb is_type auth_type_eqb]. rewrite andb_false_r.
    destruct (truthy_str (auth_name module)) eqn:Hts;
      rewrite ?(Hn eq_refl), ?andb_false_r; cbn [negb andb];
      seal_strings; exec_run'.
Qed.

Lemma add_guards_witness :
  let module := mkParams add (Some pks) (Some "initpwd") None None None
                  (Some "testlv") false false in
  let e := Examples.always Examples.locked_status in
  exec (auth_add module results0) e 0 =
  (Failed (with_msg
     "The provided authentication method's name is already present, kindly use a different one."
     results0),
   [status_query e 0 (Some "testlv")]).
Proof.
  intros module e.
  refine (proj1 (proj2 (proj2 (add_guards module results0 e 0 Examples.locked_state
                                 (PStr "yes") _ _ _))) _ _ _ _).
  - by exists Examples.locked_status, "".
  - done.
  - done.
  - by eexists.
  - done.
  - done.
  - done.
Defined.

(** X10: on a resource that is not yet initialized, with a device and a
    password, [auth_init] runs one command after the status command: the
    expect script of the bare command [hdcryptmgr authinit], in its strong
    variant when [check_password_strength] accepts the password and in its
    weak variant (which answers the confirmation prompt) otherwise.  A
    return code other than 0, 5 included, fails with the message of the
    failed command; the return code 0 returns the success message, which
    quotes the bare command. *)
Theorem init_runs_one_script (module : params) (r : results) (e : env) (n : nat)
    (d : pydict) (v : pyval) (dev p : string) :
  status_ok e n (device module) d ->
  d !! "initialized" = Some v -> pyval_eqb v "yes" = false ->
  device module = Some dev -> password module = Some p ->
  let cmd := init_command module dev in
  let script := init_script cmd p in
  exec (auth_init module r) e n =
  (let '(rc, out, err) := e (S n) script in
   if nonzero rc
   then Failed (with_msg (fail_msg_of cmd) (with_rc rc (with_stderr err r)))
   else Returned (success_prefix initialize +:+ cmd, r),
   [status_query e n (device module); (script, e (S n) script)]).
Proof.
  intros Hs Hd Hv Hdev Hp cmd script. subst cmd script.
  unfold auth_init, init_command, init_script. cbv zeta.
  rewrite (exec_get_auth_details_ok _ _ _ _ _ _ Hs).
  rewrite exec_lookup_state_bind, Hd, exec_when_bind, Hv, Hdev, Hp.
  rewrite exec_join_cmd_bind, exec_check_strength_bind.
  destruct (truthy_str (auth_detail module)), (truthy_str (auth_name module)),
    (check_password_strength p); cbn [negb app fmt];
    rewrite exec_run_bind;
    match goal with
    | |- context [e (S n) ?c] => destruct (e (S n) c) as [[rc out] err]
    end;
    cbv beta iota; rewrite exec_when_bind; destruct (nonzero rc);
    repeat first [rewrite exec_bind_assoc | rewrite exec_modify_bind];
    rewrite ?exec_fail_bind, ?exec_mret; reflexivity.
Qed.

Lemma init_runs_one_script_witness :
  let module := mkParams initialize None (Some "initpwd") (Some "secret") None None
                  (Some "testlv") false false in
  let e := Examples.always Examples.uninitialized_status in
  let cmd := "/usr/sbin/hdcryptmgr authinit -n initpwd testlv" in
  let script := expectPrompts.authinit_weak_pwd cmd "secret" "secret" in
  exec (auth_init module results0) e 0 =
  (Returned ("Successfully initialized authentication method, command: " +:+ cmd,
             results0),
   [status_query e 0 (Some "testlv"); (script, (0, Examples.uninitialized_status, ""))]).
Proof.
  intros module e cmd script.
  refine (init_runs_one_script module results0 e 0 Examples.uninitialized_state
            (PStr "no") "testlv" "secret" _ _ _ _ _).
  - by exists Examples.uninitialized_status, "".
  - done.
  - done.
  - done.
  - done.
Defined.

(** ** Every run of a handler *)

Ltac unseal_strings :=
  repeat match goal with x := _ : string |- _ => subst x end.

Ltac decide_tests :=
  repeat match goal with
         | |- context [if ?c then _ else _] => destruct c
         end.

Ltac known_cmd :=
  first [ left; reflexivity
        | right; unfold action_command; unseal_strings; decide_tests; reflexivity ].

Ltac zero_rc :=
  repeat match goal with
         | H : nonzero ?z = false |- _ =>
             unfold nonzero in H; apply negb_false_iff, Z.eqb_eq in H; subst z
         end.

Ltac nonzero_rc :=
  match goal with
  | H : nonzero ?z = true |- ?z <> 0 =>
      unfold nonzero in H; by apply negb_true_iff, Z.eqb_neq in H
  end.

Ltac decided_leaf :=
  intros [[? ?] ?];
  cbn [tool_response action_is_check lookup list_lookup fmap option_fmap
       option_map snd];
  intros Htr;
  first [ discriminate Htr
        | injection Htr as <- <- <-; unfold decided_by;
          match goal with
          | H : nonzero ?z = _ |- context [nonzero ?z] => rewrite H
          end;
          eexists; first [reflexivity | split; [reflexivity | split; reflexivity]] ].

Ltac handler_leaf :=
  unfold handler_run; cbn [fst snd length map last app];
  split; [lia|];
  split; [repeat (constructor; [known_cmd|]); constructor|];
  split; [decided_leaf|];
  lazymatch goal with
  | |- True => exact I
  | |- message_only _ ?r' => exists (res_msg r'); reflexivity
  | |- _ \/ failure_of _ ?r' =>
      first [ left; exists (res_msg r'); reflexivity
            | right; exists (res_msg r'), (res_rc r'), (res_stderr r');
              split; [cbn [res_rc with_msg with_rc with_stderr]; nonzero_rc
                     | reflexivity] ]
  | |- _ /\ _ =>
      split; [reflexivity|];
      split; [eexists; split; [reflexivity | unseal_strings; decide_tests; reflexivity]|];
      zero_rc; do 3 eexists; reflexivity
  end.

Lemma auth_check_runs (module : params) (r : results) (e : env) (n : nat) :
  handler_run check (device module) r (exec (auth_check module r) e n).
Proof.
  unfold auth_check, run_and_report. cbv zeta. seal_strings.
  exec_run'; handler_leaf.
Qed.

Lemma auth_unlock_runs (module : params) (r : results) (e : env) (n : nat) :
  handler_run unlock (device module) r (exec (auth_unlock module r) e n).
Proof.
  unfold auth_unlock, get_auth_details, run_and_report. cbv zeta. seal_strings.
  exec_run'; handler_leaf.
Qed.

Lemma auth_delete_runs (module : params) (r : results) (e : env) (n : nat) :
  handler_run delete (device module) r (exec (auth_delete module r) e n).
Proof.
  unfold auth_delete, get_auth_details, run_and_report. cbv zeta. seal_strings.
  exec_run'; handler_leaf.
Qed.

Lemma auth_init_runs (module : params) (r : results) (e : env) (n : nat) :
  handler_run initialize (device module) r (exec (auth_init module r) e n).
Proof.
  unfold auth_init, get_auth_details. cbv zeta. seal_strings.
  exec_run'; handler_leaf.
Qed.

Lemma auth_add_runs (module : params) (r : results) (e : env) (n : nat) :
  handler_run add (device module) r (exec (auth_add module r) e n).
Proof.
  unfold auth_add, get_auth_details. cbv zeta. seal_strings.
  exec_run'; handler_leaf.
Qed.

(** Every run of every handler. *)
Lemma handler_run_all (a : action_t) (module : params) (r : results) (e : env) (n : nat) :
  handler_run a (device module) r (exec (handler a module r) e n).
Proof.
  destruct a; cbn [handler].
  - apply auth_init_runs.
  - apply auth_unlock_runs.
  - apply auth_add_runs.
  - apply auth_check_runs.
  - apply auth_delete_runs.
Qed.

(** ** The commands of a handler, in their order *)

Ltac trace_leaf :=
  unfold handler_trace; cbn [action_is_check fst snd map];
  first [ left; reflexivity
        | right; eexists; split;
          [ reflexivity
          | unfold command_of; unseal_strings; decide_tests; reflexivity ] ].

Lemma auth_init_trace (module : params) (r : results) (e : env) (n : nat) :
  handler_trace initialize (device module)
    (map fst (snd (exec (auth_init module r) e n))).
Proof.
  unfold auth_init, get_auth_details. cbv zeta. seal_strings.
  exec_run'; trace_leaf.
Qed.

Lemma auth_add_trace (module : params) (r : results) (e : env) (n : nat) :
  handler_trace add (device module)
    (map fst (snd (exec (auth_add module r) e n))).
Proof.
  unfold auth_add, get_auth_details. cbv zeta. seal_strings.
  exec_run'; trace_leaf.
Qed.

Lemma auth_delete_trace (module : params) (r : results) (e : env) (n : nat) :
  handler_trace delete (device module)
    (map fst (snd (exec (auth_delete module r) e n))).
Proof.
  unfold auth_delete, get_auth_details, run_and_report. cbv zeta. seal_strings.
  exec_run'; trace_leaf.
Qed.

Lemma auth_unlock_trace (module : params) (r : results) (e : env) (n : nat) :
  handler_trace unlock (device module)
    (map fst (snd (exec (auth_unlock module r) e n))).
Proof.
  unfold auth_unlock, get_auth_details, run_and_report. cbv zeta. seal_strings.
  exec_run'; trace_leaf.
Qed.

Lemma auth_check_trace (module : params) (r : results) (e : env) (n : nat) :
  handler_trace check (device module)
    (map fst (snd (exec (auth_check module r) e n))).
Proof.
  unfold auth_check, run_and_report. cbv zeta. seal_strings.
  exec_run'; trace_leaf.
Qed.

Lemma handler_trace_NoDup (a : action_t) (dev : option string) (cs : list string) :
  handler_trace a dev cs -> NoDup cs.
Proof.
  unfold handler_trace.
  destruct (action_is_check a); intros [->|(c & -> & Hc)].
  - constructor.
  - apply NoDup_singleton.
  - apply NoDup_singleton.
  - apply NoDup_cons. split; [|apply NoDup_singleton].
    intros <-%list_elem_of_singleton.
    unfold command_of in Hc. by destruct a; vm_compute in Hc.
Qed.

(** X11: whatever the parameters and the answers of the environment, the
    commands of a run of a handler are, in this order, the status command
    (once, and first; the handler of check asks for no status) and then at
    most one command, which is the [hdcryptmgr] command of that very action,
    bare or spawned by an expect script.  No command is run twice, so
    nothing is retried and the run holds at most two commands. *)
Theorem handler_commands (a : action_t) (module : params) (r : results)
    (e : env) (n : nat) :
  handler_trace a (device module) (map fst (snd (exec (handler a module r) e n))) /\
  NoDup (map fst (snd (exec (handler a module r) e n))) /\
  (length (snd (exec (handler a module r) e n)) <= 2)%nat.
Proof.
  assert (handler_trace a (device module)
            (map fst (snd (exec (handler a module r) e n)))) as H.
  { destruct a; cbn [handler].
    - apply auth_init_trace.
    - apply auth_unlock_trace.
    - apply auth_add_trace.
    - apply auth_check_trace.
    - apply auth_delete_trace. }
  split; [exact H|]. split; [by eapply handler_trace_NoDup|].
  rewrite <- (length_map fst). unfold handler_trace in H.
  destruct (action_is_check a); destruct H as [->|(c & -> & _)]; simpl; lia.
Qed.

(** X12: for each of the five actions, when the command of the action is
    run its return code decides the outcome of the handler: the return code
    0 makes the handler return, with [results] as it was; any other return
    code makes it end with [fail_json], [results] holding that return code
    and the standard error of the command. *)
Theorem return_code_decides (a : action_t) (module : params) (r : results)
    (e : env) (n : nat) (y : response) :
  tool_response a (snd (exec (handler a module r) e n)) = Some y ->
  decided_by r y (fst (exec (handler a module r) e n)).
Proof.
  destruct (handler_run_all a module r e n) as (_ & _ & H & _). apply H.
Qed.

Lemma return_code_decides_witness :
  let module := mkParams add (Some pks) (Some "pks1") None None None
                  (Some "testlv") false false in
  decided_by results0 (0, Examples.locked_status, "")
    (fst (exec (handler add module results0)
            (Examples.always Examples.locked_status) 0)).
Proof.
  intros module.
  by apply (return_code_decides add module results0
              (Examples.always Examples.locked_status) 0).
Defined.

(** X13: how a handler ends.  It returns only after a last command with the
    return code 0, with [results] untouched and a message that quotes the
    bare [hdcryptmgr auth...] command, not the expect script that holds the
    password.  It exits with [results] changed in the message alone.  It
    fails with [results] changed in the message alone, or in the message,
    the return code and the standard error, the return code not being 0. *)
Theorem handler_results (a : action_t) (module : params) (r : results)
    (e : env) (n : nat) :
  match fst (exec (handler a module r) e n) with
  | Returned (m, r') =>
      r' = r /\
      (exists cmd, m = success_prefix a +:+ cmd /\
                   is_prefix "/usr/sbin/hdcryptmgr auth" cmd = true) /\
      exists c out err,
        last (snd (exec (handler a module r) e n)) = Some (c, (0, out, err))
  | Raised _ => True
  | Exited r' => message_only r r'
  | Failed r' => message_only r r' \/ failure_of r r'
  end.
Proof.
  by destruct (handler_run_all a module r e n) as (_ & _ & _ & H).
Qed.

(** ** Every run of the module *)

Lemma exec_get_results_bind {B : Type} (g : results -> M B) (r : results)
    (e : env) (n : nat) :
  exec ((get_results ≫= g) r) e n = exec (g r r) e n.
Proof. done. Qed.

(** A run of [main]: the status command, then the handler of the action,
    then the end of [main]. *)
Lemma main_run (module : params) (e : env) :
  run (main module) e =
  let '(rc, out, err) := e 0%nat (showlv_cmd (device module)) in
  if nonzero rc
  then (Failed (status_failed rc err results0), [status_query e 0 (device module)])
  else match parse (device module) out with
       | Err x => (Raised x, [status_query e 0 (device module)])
       | Ok _ =>
           (finish_main (action module)
              (fst (exec (handler (action module) module results0) e 1)),
            status_query e 0 (device module)
            :: snd (exec (handler (action module) module results0) e 1))
       end.
Proof.
  unfold run, main, get_auth_details, status_query, status_failed. cbv zeta.
  rewrite exec_bind_assoc, exec_run_bind.
  destruct (e 0%nat (showlv_cmd (device module))) as [[rc out] err].
  cbv beta iota. rewrite !exec_bind_assoc, exec_when_bind.
  destruct (nonzero rc).
  - repeat first [rewrite exec_bind_assoc | rewrite exec_modify_bind].
    by rewrite exec_fail_bind.
  - rewrite exec_lift_res_bind. destruct (parse (device module) out); [|done].
    rewrite exec_when_bind. cbn [lv_exists_object_truthy negb].
    rewrite exec_mbind.
    destruct (action module); cbn [handler];
      match goal with
      | |- context [exec (?h module results0) e 1] =>
          destruct (exec (h module results0) e 1) as [[[m r']| | |] t]
      end;
      cbn [exec_then fst snd finish_main action_is_check]; try done;
      rewrite exec_modify_bind, exec_when_bind; cbn [negb];
      repeat first [rewrite exec_modify_bind | rewrite exec_get_results_bind];
      cbn [exec fst snd]; by rewrite app_nil_r.
Qed.

(** X14: every run of [main] holds at most three commands, each the status
    command or an [hdcryptmgr auth...] command of the action; [lslv], the
    command of [lv_exists], is never run. *)
Theorem main_commands (module : params) (e : env) :
  (length (snd (run (main module) e)) <= 3)%nat /\
  Forall (known_command (device module)) (commands (run (main module) e)) /\
  Forall (fun c => is_prefix "lslv" c = false) (commands (run (main module) e)).
Proof.
  assert (forall c, known_command (device module) c -> is_prefix "lslv" c = false) as Hl.
  { intros c [->| H]; [reflexivity|]. unfold action_command in H.
    destruct c as [|a c]; [done|]. cbn [is_prefix] in *.
    destruct (Ascii.eqb "l" a) eqn:Ha; [|done].
    apply Ascii.eqb_eq in Ha. subst a. by vm_compute in H. }
  assert ((length (snd (run (main module) e)) <= 3)%nat /\
          Forall (known_command (device module)) (commands (run (main module) e)))
    as [H1 H2].
  { unfold commands. rewrite main_run.
    destruct (e 0%nat (showlv_cmd (device module))) as [[rc out] err].
    destruct (nonzero rc); [|destruct (parse (device module) out)]; cbn [fst snd length map].
    - split; [lia|]. repeat constructor.
    - destruct (handler_run_all (action module) module results0 e 1) as (H1 & H2 & _).
      split; [lia|]. constructor; [by left | done].
    - split; [lia|]. repeat constructor. }
  repeat split; [done | done |].
  eapply Forall_impl; [exact H2 | exact Hl].
Qed.

(** X15: how [main] ends.  It never returns: it ends with [exit_json], with
    [fail_json] or with an exception.  At [exit_json] the return code is 0
    and the standard error empty, and [changed] is true only for an action
    other than check.  At [fail_json] [changed] is false.  The entries
    [cmd] and [stdout] of [results] are empty at both. *)
Theorem main_outcome (module : params) (e : env) :
  match fst (run (main module) e) with
  | Returned _ => False
  | Raised _ => True
  | Exited r =>
      res_rc r = 0 /\ res_stderr r = "" /\ res_cmd r = "" /\ res_stdout r = "" /\
      (res_changed r = true -> action module <> check)
  | Failed r => res_changed r = false /\ res_cmd r = "" /\ res_stdout r = ""
  end.
Proof.
  rewrite main_run.
  destruct (e 0%nat (showlv_cmd (device module))) as [[rc out] err].
  destruct (nonzero rc); [done|].
  destruct (parse (device module) out); [|done]. cbn [fst].
  destruct (handler_run_all (action module) module results0 e 1) as (_ & _ & _ & H).
  destruct (fst (exec (handler (action module) module results0) e 1))
    as [[m r']|x|r'|r']; cbn [finish_main].
  - destruct H as (-> & _). by destruct (action module).
  - done.
  - by destruct H as [m ->].
  - by destruct H as [[m ->]|(m & rc' & err' & _ & ->)].
Qed.
